(** * Pulse detection and mean spacing of [make_graph.py]

    A shallow embedding of the statements of [code/v2-final/make_graph.py]
    that carry logic: the detection of control pulses in the [turbulence]
    column (lines 57-69), the pairs the shading loop of line 77 iterates
    over, the positional reads of lines 109-111 and the division of line
    113.

    The file as shipped.  Line 79, the header of the inner loop, is not
    indented under the loop of line 77, so Python rejects the file with
    [IndentationError] before any statement runs.  What is modelled is the
    statements, each as Python and pandas evaluate it; no run of the whole
    file is modelled.

    Numbers.  The columns of the table are float64 values read from a CSV
    file.  Detection only compares them ([>]) and copies them, and on finite
    floats the comparison is the comparison of the rationals they denote,
    so a cell is modelled as a rational [Q]; NaN and infinite cells are
    outside the model.  Where a statement speaks of an inactive sample it
    says "not above the threshold" ([~ threshold < v]), which is how the
    comparison of line 57 treats every cell it does not flag.  The
    quotient of the last line is the exact quotient, of which the float64
    result is the rounding; no statement below relies on its exactness
    beyond the value 10.0/2.

    Literals.  The threshold [10] of line 57 and the duration [10.0] of
    line 113 are parameters of the functions below ([threshold],
    [total_duration]). *)

From Stdlib Require Import List Bool ZArith QArith Lia Lqa Sorted.
Import ListNotations.

Open Scope Q_scope.

(** ** The table *)

(** One line of [w7x_simulation.csv]; the script reads these four columns. *)
Record Row : Type := mkRow {
  time : Q;
  center_impurity : Q;
  edge_impurity : Q;
  turbulence : Q
}.

(** [df = pd.read_csv(...)]: the rows in file order.  A column [df['c']] is
    [map c df]; every Series derived from [df] keeps its index, so Series
    are lists of equal length read position by position. *)
Definition DataFrame : Type := list Row.

(** ** The pandas operations the script uses *)

Module Series.

(** [v > k] on two floats. *)
Definition Qgtb (v k : Q) : bool := negb (Qle_bool v k).

(** [s > k]: the element-wise comparison with a scalar. *)
Definition gt (s : list Q) (k : Q) : list bool :=
  map (fun v => Qgtb v k) s.

(** [s.astype(int)] on a boolean Series: [False] is 0 and [True] is 1. *)
Definition astype_int (s : list bool) : list Z := map Z.b2z s.

(** [s.diff()]: the first entry is NaN (here [None]), entry [i > 0] is
    [s[i] - s[i-1]]. *)
Fixpoint diff_from (prev : Z) (s : list Z) : list (option Z) :=
  match s with
  | [] => []
  | x :: s' => Some (x - prev)%Z :: diff_from x s'
  end.

Definition diff (s : list Z) : list (option Z) :=
  match s with
  | [] => []
  | x :: s' => None :: diff_from x s'
  end.

(** [s == k]: NaN is equal to nothing. *)
Definition eq_scalar (s : list (option Z)) (k : Z) : list bool :=
  map (fun d => match d with
                | Some z => Z.eqb z k
                | None => false
                end) s.

(** [s[mask].values]: the entries of [s] at the positions where the
    boolean mask holds, in order.  pandas refuses a mask whose length is
    not that of [s]; the masks of the script have the length of the
    table ([pulse_changes_length], [eq_scalar_length]), and on those the
    two lists below end together. *)
Fixpoint getitem {A : Type} (s : list A) (mask : list bool) : list A :=
  match s, mask with
  | x :: s', b :: mask' =>
      if b then x :: getitem s' mask' else getitem s' mask'
  | _, _ => []
  end.

End Series.

(** ** Pulse detection (lines 57-69) *)

(** [pulse_active = df['turbulence'] > 10] *)
Definition pulse_active (threshold : Q) (df : DataFrame) : list bool :=
  Series.gt (map turbulence df) threshold.

(** [pulse_changes = pulse_active.astype(int).diff()] *)
Definition pulse_changes (threshold : Q) (df : DataFrame) : list (option Z) :=
  Series.diff (Series.astype_int (pulse_active threshold df)).

(** [pulse_starts = df['time'][pulse_changes == 1].values] *)
Definition pulse_starts (threshold : Q) (df : DataFrame) : list Q :=
  Series.getitem (map time df)
                 (Series.eq_scalar (pulse_changes threshold df) 1).

(** [pulse_ends = df['time'][pulse_changes == -1].values] *)
Definition pulse_ends (threshold : Q) (df : DataFrame) : list Q :=
  Series.getitem (map time df)
                 (Series.eq_scalar (pulse_changes threshold df) (-1)).

(** [n_pulses = len(pulse_starts)] *)
Definition n_pulses (threshold : Q) (df : DataFrame) : nat :=
  length (pulse_starts threshold df).

(** [zip(pulse_starts, pulse_ends)]: the pairs the shading loop of line 77
    iterates over; [zip] stops at the shorter of the two arrays. *)
Definition pulse_spans (threshold : Q) (df : DataFrame) : list (Q * Q) :=
  combine (pulse_starts threshold df) (pulse_ends threshold df).

(** The literal of line 57. *)
Definition turbulence_threshold : Q := 10.

(** ** The statements after detection (lines 71-113) *)

(** The Python exceptions these statements raise. *)
Inductive exn : Type :=
| IndexError
| ZeroDivisionError.

Inductive result (A : Type) : Type :=
| Return (a : A)
| Raise (e : exn).
Arguments Return {A} a.
Arguments Raise {A} e.

(** What detection hands to the console and to the figure. *)
Inductive event : Type :=
| PrintInterventions (n : nat)            (* line 71 *)
| AxvSpan (ax : nat) (start stop : Q).    (* line 81, on [axes[ax]] *)

(** [s.iloc[i]]: position [i] counted from the front when [i >= 0], from
    the back when [i < 0]; out of range raises [IndexError]. *)
Definition iloc (s : list Q) (i : Z) : result Q :=
  let n := Z.of_nat (length s) in
  let k := if (i <? 0)%Z then (n + i)%Z else i in
  if ((k <? 0)%Z || (n <=? k)%Z)%bool then Raise IndexError
  else match nth_error s (Z.to_nat k) with
       | Some v => Return v
       | None => Raise IndexError
       end.

(** [(10.0)/n_pulses] of line 113, a Python float divided by a Python
    [int]: division by zero raises [ZeroDivisionError]. *)
Definition mean_pulse_spacing (total_duration : Q) (n_pulses : nat) : result Q :=
  match n_pulses with
  | O => Raise ZeroDivisionError
  | S _ => Return (total_duration / inject_Z (Z.of_nat n_pulses))
  end.

(** The literal of line 113. *)
Definition total_duration : Q := 10.

(** The three panels of [plt.subplots(3, 1)]. *)
Definition axes : list nat := [0; 1; 2]%nat.

(** Lines 77-81 read as a loop nest, the loop of line 79 as the body of
    the loop of line 77, whose variables [start] and [end] it uses: the
    calls of [axvspan] such a nest makes.  The file has line 79 at the
    left margin, so this is what the lines are written to do, not what the
    shipped file does. *)
Definition shade (spans : list (Q * Q)) : list event :=
  flat_map (fun span => map (fun ax => AxvSpan ax (fst span) (snd span)) axes)
           spans.

(** What detection contributes: the printed count and the intervals to
    shade. *)
Definition detection_log (threshold : Q) (df : DataFrame) : list event :=
  PrintInterventions (n_pulses threshold df)
  :: shade (pulse_spans threshold df).

(** ** Vocabulary of the specification *)

(** A sample is active when its value is above the threshold. *)
Definition active (threshold : Q) (r : Row) : bool :=
  Series.Qgtb (turbulence r) threshold.

Definition idle (threshold : Q) (r : Row) : Prop := active threshold r = false.

Definition busy (threshold : Q) (r : Row) : Prop := active threshold r = true.

(** The series of a table, and a table with a given series as its [time]
    and [turbulence] columns (the other two columns, which play no part in
    detection, are filled with 1). *)
Definition samples (df : DataFrame) : list (Q * Q) :=
  map (fun r => (time r, turbulence r)) df.

Definition of_samples (s : list (Q * Q)) : DataFrame :=
  map (fun p => mkRow (fst p) 1 1 (snd p)) s.

(** The series of the specification's scenario. *)
Definition scenario : list (Q * Q) :=
  [(0, 1); (1, 1); (2, 15); (3, 15); (4, 1); (5, 20); (6, 1)].

(** A series that ends while a pulse is on. *)
Definition trailing_pulse : DataFrame := of_samples [(0, 1); (1, 15)].

(** A series that begins while a pulse is on. *)
Definition leading_pulse : DataFrame :=
  of_samples [(0, 15); (1, 1); (2, 15); (3, 1)].

(** A series that stays above the threshold. *)
Definition saturated : DataFrame := of_samples [(0, 15); (1, 15); (2, 15)].

(** A series whose times do not increase. *)
Definition unordered : DataFrame := of_samples [(1, 1); (0, 15); (0, 1)].

(** Two consecutive stretches of a recording, one pulse in each. *)
Definition first_stretch : DataFrame := of_samples [(0, 1); (1, 15); (2, 1)].

Definition second_stretch : DataFrame := of_samples [(3, 4); (4, 20); (5, 1)].

(** Times strictly increase from each sample to the next. *)
Inductive increasing_times : DataFrame -> Prop :=
| inc_nil : increasing_times []
| inc_one : forall r, increasing_times [r]
| inc_cons : forall r r' df,
    time r < time r' ->
    increasing_times (r' :: df) ->
    increasing_times (r :: r' :: df).

(** The first and the last sample of a table, when it has one. *)
Definition first_sample (df : DataFrame) : option Row := hd_error df.

Definition last_sample (df : DataFrame) : option Row := hd_error (rev df).

(** The table is empty or ends on an inactive sample. *)
Definition ends_idle (threshold : Q) (df : DataFrame) : Prop :=
  forall r, last_sample df = Some r -> active threshold r = false.

(** The table begins with an inactive sample. *)
Definition starts_idle (threshold : Q) (df : DataFrame) : Prop :=
  exists r, first_sample df = Some r /\ active threshold r = false.

(** The table ends on an active sample. *)
Definition ends_busy (threshold : Q) (df : DataFrame) : Prop :=
  exists r, last_sample df = Some r /\ active threshold r = true.

(** A time [t] falls inside the interval [(start, stop)]: the closing
    boundary is the first sample after the run and is not part of it. *)
Definition inside (t : Q) (span : Q * Q) : Prop :=
  fst span <= t /\ t < snd span.

(** The maximal contiguous active runs of a table that are closed by an
    inactive sample, in order: the table is a stretch of inactive samples,
    then a non-empty stretch of active ones, then an inactive sample
    [stop], and so on from [stop]; it ends on inactive samples.  Each run
    is reported as (time of its first active sample, time of the first
    inactive sample after it). *)
Inductive run_partition (threshold : Q) : DataFrame -> list (Q * Q) -> Prop :=
| rp_idle : forall gap,
    Forall (idle threshold) gap ->
    run_partition threshold gap []
| rp_run : forall gap r run stop rest spans,
    Forall (idle threshold) gap ->
    Forall (busy threshold) (r :: run) ->
    idle threshold stop ->
    run_partition threshold (stop :: rest) spans ->
    run_partition threshold (gap ++ r :: run ++ stop :: rest)
                  ((time r, time stop) :: spans).

(** Intervals in order and apart: each has [start < stop], and closes no
    later than any interval after it opens.  This is sortedness by start
    together with pairwise non-overlap. *)
Fixpoint separated (spans : list (Q * Q)) : Prop :=
  match spans with
  | [] => True
  | s :: rest =>
      fst s < snd s /\
      (forall s', In s' rest -> snd s <= fst s') /\
      separated rest
  end.

(** The flag the walk holds after a stretch of samples: that of its last
    sample, or [prev] when the stretch is empty. *)
Fixpoint flag_after (threshold : Q) (prev : bool) (df : DataFrame) : bool :=
  match df with
  | [] => prev
  | r :: df' => flag_after threshold (active threshold r) df'
  end.

(** Every later sample has a later time. *)
Definition times_sorted (df : DataFrame) : Prop :=
  StronglySorted (fun a b => time a < time b) df.

(** The edges of the indicator read off the flags directly: the times of
    the samples that are active after an inactive one, and of those that
    are inactive after an active one, [prev] being the flag of the sample
    before. *)
Fixpoint rising (threshold : Q) (prev : bool) (df : DataFrame) : list Q :=
  match df with
  | [] => []
  | r :: df' =>
      let a := active threshold r in
      if (negb prev && a)%bool then time r :: rising threshold a df'
      else rising threshold a df'
  end.

Fixpoint falling (threshold : Q) (prev : bool) (df : DataFrame) : list Q :=
  match df with
  | [] => []
  | r :: df' =>
      let a := active threshold r in
      if (prev && negb a)%bool then time r :: falling threshold a df'
      else falling threshold a df'
  end.

(** The table begins with an active sample. *)
Definition starts_busy (threshold : Q) (df : DataFrame) : Prop :=
  exists r, first_sample df = Some r /\ active threshold r = true.

(** All the edges of the indicator in table order, rising and falling
    alike: the times of the samples whose flag differs from the flag
    before. *)
Fixpoint boundaries (threshold : Q) (prev : bool) (df : DataFrame) : list Q :=
  match df with
  | [] => []
  | r :: df' =>
      let a := active threshold r in
      if xorb prev a then time r :: boundaries threshold a df'
      else boundaries threshold a df'
  end.

(** Two lists read alternately, beginning with the first: [x1, y1, x2,
    y2, ...]; what is left of the longer one follows. *)
Fixpoint weave (xs ys : list Q) : list Q :=
  match xs, ys with
  | [], _ => ys
  | _, [] => xs
  | x :: xs', y :: ys' => x :: y :: weave xs' ys'
  end.

(** The boundaries of a table read alternately, beginning with the kind
    of edge that comes first: a rising one when the first sample is
    inactive, a falling one when it is active. *)
Definition alternate_edges (threshold : Q) (df : DataFrame) : list Q :=
  match df with
  | [] => []
  | r :: _ =>
      if active threshold r
      then weave (pulse_ends threshold df) (pulse_starts threshold df)
      else weave (pulse_starts threshold df) (pulse_ends threshold df)
  end.

(** The maximal contiguous runs of samples above the threshold that are
    closed by a sample not above it, in order, stated with the order on
    the values: the table is a stretch of samples not above the threshold
    (on rationals: at or below it), then a non-empty stretch of samples
    above it, then a sample [stop] not above it, and so on from [stop]; it
    ends on samples not above the threshold.  Each run is reported as
    (time of its first sample, time of the first sample after it). *)
Inductive pulse_runs (threshold : Q) : DataFrame -> list (Q * Q) -> Prop :=
| runs_none : forall gap,
    Forall (fun x => ~ threshold < turbulence x) gap ->
    pulse_runs threshold gap []
| runs_next : forall gap r run stop rest spans,
    Forall (fun x => ~ threshold < turbulence x) gap ->
    Forall (fun x => threshold < turbulence x) (r :: run) ->
    ~ threshold < turbulence stop ->
    pulse_runs threshold (stop :: rest) spans ->
    pulse_runs threshold (gap ++ r :: run ++ stop :: rest)
               ((time r, time stop) :: spans).

(** The same table with every time [t] replaced by [f t]. *)
Definition retime (f : Q -> Q) (df : DataFrame) : DataFrame :=
  map (fun r => mkRow (f (time r)) (center_impurity r) (edge_impurity r)
                      (turbulence r)) df.

(** ** Elementary facts *)

Lemma Qgtb_true (v k : Q) : Series.Qgtb v k = true <-> k < v.
Proof.
  unfold Series.Qgtb. rewrite negb_true_iff.
  split; intro H.
  - apply Qnot_le_lt. intro Hle. apply Qle_bool_iff in Hle. congruence.
  - destruct (Qle_bool v k) eqn:E; [|reflexivity].
    apply Qle_bool_iff in E. exfalso. apply (Qlt_not_le _ _ H E).
Qed.

Lemma Qgtb_false (v k : Q) : Series.Qgtb v k = false <-> v <= k.
Proof.
  unfold Series.Qgtb. rewrite negb_false_iff. apply Qle_bool_iff.
Qed.

Lemma active_false (threshold : Q) (r : Row) :
  active threshold r = false <-> ~ threshold < turbulence r.
Proof.
  unfold active. rewrite Qgtb_false. split.
  - apply Qle_not_lt.
  - apply Qnot_lt_le.
Qed.

Lemma active_true (threshold : Q) (r : Row) :
  active threshold r = true <-> threshold < turbulence r.
Proof. unfold active. apply Qgtb_true. Qed.

(** ** The edges of the indicator *)

Section Edges.

Variable threshold : Q.

(** One step of a mask along the table: the change at a sample is the
    difference of its flag and the flag before, and the four combinations
    of the two flags decide whether the sample is selected. *)
Ltac mask_walk df prev :=
  let r := fresh "r" in
  let IH := fresh "IH" in
  revert prev; induction df as [|r df IH]; intro prev; [reflexivity|];
  cbn [map pulse_active Series.gt Series.astype_int Series.diff_from
       Series.eq_scalar Series.getitem rising falling];
  fold (Series.gt (map turbulence df) threshold);
  fold (pulse_active threshold df);
  fold (Series.astype_int (pulse_active threshold df));
  specialize (IH (Series.Qgtb (turbulence r) threshold));
  unfold Series.eq_scalar in IH; rewrite IH;
  unfold active;
  destruct prev, (Series.Qgtb (turbulence r) threshold); reflexivity.

(** The mask [pulse_changes == 1], read from the flag of the previous
    sample on. *)
Lemma getitem_rising (prev : bool) (df : DataFrame) :
  Series.getitem (map time df)
    (Series.eq_scalar
       (Series.diff_from (Z.b2z prev)
          (Series.astype_int (pulse_active threshold df))) 1)
  = rising threshold prev df.
Proof. mask_walk df prev. Qed.

Lemma getitem_falling (prev : bool) (df : DataFrame) :
  Series.getitem (map time df)
    (Series.eq_scalar
       (Series.diff_from (Z.b2z prev)
          (Series.astype_int (pulse_active threshold df))) (-1))
  = falling threshold prev df.
Proof. mask_walk df prev. Qed.

(** The first sample has no predecessor: its change is NaN and it is
    never a boundary. *)
Lemma pulse_starts_cons (r : Row) (df : DataFrame) :
  pulse_starts threshold (r :: df) = rising threshold (active threshold r) df.
Proof.
  unfold pulse_starts, pulse_changes.
  cbn [map pulse_active Series.gt Series.astype_int Series.diff
       Series.eq_scalar Series.getitem].
  apply getitem_rising.
Qed.

Lemma pulse_ends_cons (r : Row) (df : DataFrame) :
  pulse_ends threshold (r :: df) = falling threshold (active threshold r) df.
Proof.
  unfold pulse_ends, pulse_changes.
  cbn [map pulse_active Series.gt Series.astype_int Series.diff
       Series.eq_scalar Series.getitem].
  apply getitem_falling.
Qed.

End Edges.

(** ** Runs of equal flags *)

Section Runs.

Variable threshold : Q.

Lemma rising_idle (gap rest : DataFrame) :
  Forall (idle threshold) gap ->
  rising threshold false (gap ++ rest) = rising threshold false rest.
Proof.
  induction 1 as [|r gap Hr _ IH]; [reflexivity|].
  cbn [app rising]. unfold idle in Hr. rewrite Hr. exact IH.
Qed.

Lemma falling_idle (gap rest : DataFrame) :
  Forall (idle threshold) gap ->
  falling threshold false (gap ++ rest) = falling threshold false rest.
Proof.
  induction 1 as [|r gap Hr _ IH]; [reflexivity|].
  cbn [app falling]. unfold idle in Hr. rewrite Hr. exact IH.
Qed.

Lemma rising_busy (run rest : DataFrame) :
  Forall (busy threshold) run ->
  rising threshold true (run ++ rest) = rising threshold true rest.
Proof.
  induction 1 as [|r run Hr _ IH]; [reflexivity|].
  cbn [app rising]. unfold busy in Hr. rewrite Hr. exact IH.
Qed.

Lemma falling_busy (run rest : DataFrame) :
  Forall (busy threshold) run ->
  falling threshold true (run ++ rest) = falling threshold true rest.
Proof.
  induction 1 as [|r run Hr _ IH]; [reflexivity|].
  cbn [app falling]. unfold busy in Hr. rewrite Hr. exact IH.
Qed.

(** Every table is a stretch of inactive samples followed by nothing or
    by a table that begins with an active sample; and symmetrically. *)
Lemma split_idle (df : DataFrame) :
  exists gap rest,
    df = gap ++ rest /\ Forall (idle threshold) gap /\
    (rest = [] \/ exists r rest', rest = r :: rest' /\ busy threshold r).
Proof.
  induction df as [|r df (gap & rest & E & Hgap & Hrest)].
  - exists [], []. repeat split; auto.
  - destruct (active threshold r) eqn:Hr.
    + exists [], (r :: df). repeat split; auto.
      right. exists r, df. split; [reflexivity | exact Hr].
    + exists (r :: gap), rest. subst df. repeat split; auto.
Qed.

Lemma split_busy (df : DataFrame) :
  exists run rest,
    df = run ++ rest /\ Forall (busy threshold) run /\
    (rest = [] \/ exists r rest', rest = r :: rest' /\ idle threshold r).
Proof.
  induction df as [|r df (run & rest & E & Hrun & Hrest)].
  - exists [], []. repeat split; auto.
  - destruct (active threshold r) eqn:Hr.
    + exists (r :: run), rest. subst df. repeat split; auto.
    + exists [], (r :: df). repeat split; auto.
      right. exists r, df. split; [reflexivity | exact Hr].
Qed.

Lemma last_sample_app (l rest : DataFrame) :
  rest <> [] -> last_sample (l ++ rest) = last_sample rest.
Proof.
  intro Hne. unfold last_sample. rewrite rev_app_distr.
  destruct (rev rest) as [|x xs] eqn:E; [|reflexivity].
  exfalso. apply Hne. rewrite <- (rev_involutive rest), E. reflexivity.
Qed.

Lemma last_sample_In (df : DataFrame) (r : Row) :
  last_sample df = Some r -> In r df.
Proof.
  unfold last_sample. intro H. apply in_rev.
  destruct (rev df); [discriminate|]. injection H as ->. now left.
Qed.

Lemma last_sample_cons (r : Row) (df : DataFrame) :
  exists x, last_sample (r :: df) = Some x.
Proof.
  unfold last_sample. destruct (rev (r :: df)) as [|x xs] eqn:E.
  - apply (f_equal (@length Row)) in E. rewrite length_rev in E.
    discriminate.
  - exists x. reflexivity.
Qed.

(** Read from an inactive state, the rising and falling edges of a table
    that ends inactive pair up into its maximal active runs. *)
Lemma edges_partition (n : nat) :
  forall df,
    (length df <= n)%nat ->
    ends_idle threshold df ->
    run_partition threshold df
      (combine (rising threshold false df) (falling threshold false df))
    /\ length (rising threshold false df)
       = length (falling threshold false df).
Proof.
  induction n as [|n IH]; intros df Hlen Hend.
  - destruct df; [|cbn in Hlen; lia].
    split; [apply rp_idle; constructor | reflexivity].
  - destruct (split_idle df) as (gap & rest & -> & Hgap & Hrest).
    rewrite (rising_idle gap rest Hgap), (falling_idle gap rest Hgap).
    destruct Hrest as [-> | (r & rest' & -> & Hr)].
    { rewrite app_nil_r. split; [apply rp_idle; exact Hgap | reflexivity]. }
    destruct (split_busy rest') as (run & rest2 & -> & Hrun & Hrest2).
    destruct Hrest2 as [-> | (stop & rest3 & -> & Hstop)].
    { exfalso. rewrite app_nil_r in Hend.
      destruct (last_sample_cons r run) as (x & Hx).
      assert (Hx' : last_sample (gap ++ r :: run) = Some x)
        by (rewrite last_sample_app; [exact Hx | discriminate]).
      specialize (Hend x Hx').
      apply last_sample_In in Hx.
      assert (Hb : Forall (busy threshold) (r :: run)) by (constructor; assumption).
      rewrite Forall_forall in Hb. specialize (Hb x Hx).
      unfold busy in Hb. congruence. }
    assert (Hlen' : (length (stop :: rest3) <= n)%nat).
    { rewrite !length_app in Hlen. cbn [length] in Hlen.
      rewrite length_app in Hlen. cbn [length] in Hlen |- *. lia. }
    assert (Hend' : ends_idle threshold (stop :: rest3)).
    { intros x Hx. apply Hend.
      rewrite last_sample_app by discriminate.
      change (r :: run ++ stop :: rest3)
        with ((r :: run) ++ stop :: rest3).
      rewrite last_sample_app by discriminate. exact Hx. }
    destruct (IH _ Hlen' Hend') as (Hpart & Hcount).
    unfold idle, busy in Hr, Hstop.
    cbn [rising falling] in Hpart, Hcount |- *.
    rewrite Hr. cbn [negb andb].
    rewrite (rising_busy run _ Hrun), (falling_busy run _ Hrun).
    cbn [rising falling].
    rewrite Hstop in Hpart, Hcount |- *. cbn [negb andb] in Hpart, Hcount |- *.
    split.
    + cbn [combine]. apply rp_run; auto.
    + cbn [length]. f_equal. exact Hcount.
Qed.

End Runs.

(** ** Detection on tables that begin and end inactive *)

Section Detection.

Variable threshold : Q.

(** A partition into runs is read off the edges: there is one partition
    at most. *)
Lemma run_partition_edges (df : DataFrame) (spans : list (Q * Q)) :
  run_partition threshold df spans ->
  spans = combine (rising threshold false df) (falling threshold false df).
Proof.
  induction 1 as [gap Hgap | gap r run stop rest spans Hgap Hrun Hstop _ IH].
  - rewrite <- (app_nil_r gap), (rising_idle threshold gap [] Hgap).
    reflexivity.
  - rewrite (rising_idle threshold gap _ Hgap),
            (falling_idle threshold gap _ Hgap).
    pose proof (Forall_inv Hrun) as Hr.
    pose proof (Forall_inv_tail Hrun) as Hrun'.
    unfold busy in Hr. unfold idle in Hstop.
    cbn [rising falling]. rewrite Hr. cbn [negb andb].
    rewrite (rising_busy threshold run _ Hrun'),
            (falling_busy threshold run _ Hrun').
    cbn [rising falling] in IH |- *.
    rewrite Hstop in IH |- *. cbn [negb andb] in IH |- *.
    cbn [combine]. f_equal. exact IH.
Qed.

Lemma run_partition_unique (df : DataFrame) (s1 s2 : list (Q * Q)) :
  run_partition threshold df s1 -> run_partition threshold df s2 -> s1 = s2.
Proof.
  intros H1 H2.
  rewrite (run_partition_edges df s1 H1), (run_partition_edges df s2 H2).
  reflexivity.
Qed.

(** On a table that begins inactive the first sample, whose change is
    NaN, is no edge anyway. *)
Lemma starts_idle_edges (df : DataFrame) :
  starts_idle threshold df ->
  pulse_starts threshold df = rising threshold false df
  /\ pulse_ends threshold df = falling threshold false df.
Proof.
  intros (r & Hfirst & Hr). destruct df as [|r0 df]; [discriminate|].
  injection Hfirst as ->.
  rewrite pulse_starts_cons, pulse_ends_cons.
  cbn [rising falling]. rewrite Hr. cbn [negb andb]. split; reflexivity.
Qed.

Lemma idle_edges_partition (df : DataFrame) :
  starts_idle threshold df ->
  ends_idle threshold df ->
  run_partition threshold df (pulse_spans threshold df)
  /\ length (pulse_starts threshold df) = length (pulse_ends threshold df).
Proof.
  intros Hfirst Hlast. unfold pulse_spans.
  destruct (starts_idle_edges df Hfirst) as (-> & ->).
  apply (edges_partition threshold (length df)); [lia | exact Hlast].
Qed.

End Detection.

(** ** Increasing times *)

Lemma increasing_times_sorted (df : DataFrame) :
  increasing_times df -> times_sorted df.
Proof.
  unfold times_sorted.
  induction 1 as [| r | r r' df Hlt _ IH].
  - constructor.
  - constructor; constructor.
  - pose proof (StronglySorted_inv IH) as (_ & Hall).
    constructor; [exact IH|].
    constructor; [exact Hlt|].
    eapply Forall_impl; [|exact Hall].
    intros a Ha. cbn beta in *. lra.
Qed.

Lemma times_sorted_app (l1 l2 : DataFrame) :
  times_sorted (l1 ++ l2) ->
  times_sorted l1 /\ times_sorted l2 /\
  (forall a b, In a l1 -> In b l2 -> time a < time b).
Proof.
  unfold times_sorted. induction l1 as [|x l1 IH]; cbn [app]; intro H.
  - repeat split; [constructor | exact H | intros a b []].
  - apply StronglySorted_inv in H. destruct H as (Hs & Hall).
    destruct (IH Hs) as (H1 & H2 & H12).
    rewrite Forall_app in Hall. destruct Hall as (Hx1 & Hx2).
    repeat split.
    + constructor; assumption.
    + exact H2.
    + intros a b [<- | Ha] Hb.
      * rewrite Forall_forall in Hx2. apply Hx2, Hb.
      * apply H12; assumption.
Qed.

Lemma times_sorted_head (r : Row) (df : DataFrame) :
  times_sorted (r :: df) -> forall x, In x (r :: df) -> time r <= time x.
Proof.
  intros H x [<- | Hx]; [lra|].
  apply StronglySorted_inv in H. destruct H as (_ & Hall).
  rewrite Forall_forall in Hall. apply Qlt_le_weak, Hall, Hx.
Qed.

Lemma increasing_times_app (l1 l2 : DataFrame) :
  increasing_times (l1 ++ l2) -> increasing_times l1.
Proof.
  induction l1 as [|x l1 IH]; intro H; [constructor|].
  destruct l1 as [|y l1]; [constructor|].
  cbn [app] in *. inversion H; subst. constructor; auto.
Qed.

(** ** Intervals of a partition into runs *)

Section Spans.

Variable threshold : Q.

(** Every interval opens at the time of a sample of the table. *)
Lemma run_partition_start (df : DataFrame) (spans : list (Q * Q)) :
  run_partition threshold df spans ->
  forall s, In s spans -> exists y, In y df /\ time y = fst s.
Proof.
  induction 1 as [gap Hgap | gap r run stop rest spans Hgap Hrun Hstop _ IH];
    intros s Hs; [destruct Hs|].
  destruct Hs as [<- | Hs].
  - exists r. split; [|reflexivity]. apply in_or_app. right. now left.
  - destruct (IH s Hs) as (y & Hy & E). exists y. split; [|exact E].
    apply in_or_app. right. right. apply in_or_app. right. exact Hy.
Qed.

Lemma run_partition_separated (df : DataFrame) (spans : list (Q * Q)) :
  run_partition threshold df spans ->
  times_sorted df ->
  separated spans.
Proof.
  induction 1 as [gap Hgap | gap r run stop rest spans Hgap Hrun Hstop Hp IH];
    intro Hsorted; [exact I|].
  apply times_sorted_app in Hsorted. destruct Hsorted as (_ & Hs1 & _).
  change (r :: run ++ stop :: rest) with ((r :: run) ++ stop :: rest) in Hs1.
  apply times_sorted_app in Hs1. destruct Hs1 as (_ & Hs2 & Hlt).
  cbn [separated fst snd]. repeat split.
  - apply Hlt; now left.
  - intros s' Hs'.
    destruct (run_partition_start _ _ Hp s' Hs') as (y & Hy & <-).
    apply (times_sorted_head stop rest Hs2 y Hy).
  - apply IH, Hs2.
Qed.

(** Membership of the samples: the active ones lie in an interval, the
    inactive ones in none. *)
Lemma run_partition_cover (df : DataFrame) (spans : list (Q * Q)) :
  run_partition threshold df spans ->
  times_sorted df ->
  forall x, In x df ->
    (active threshold x = true ->
     exists s, In s spans /\ inside (time x) s)
    /\ (active threshold x = false ->
        forall s, In s spans -> ~ inside (time x) s).
Proof.
  induction 1 as [gap Hgap | gap r run stop rest spans Hgap Hrun Hstop Hp IH];
    intros Hsorted x Hx.
  - rewrite Forall_forall in Hgap. specialize (Hgap x Hx). cbn beta in Hgap.
    split; [congruence | intros _ s []].
  - pose proof Hsorted as Hsorted0.
    apply times_sorted_app in Hsorted. destruct Hsorted as (_ & Hs1 & Hlt1).
    change (r :: run ++ stop :: rest) with ((r :: run) ++ stop :: rest)
      in Hs1, Hlt1, Hx.
    apply times_sorted_app in Hs1. destruct Hs1 as (Hsrun & Hs2 & Hlt2).
    assert (Hlow : forall s', In s' spans -> time stop <= fst s').
    { intros s' Hs'.
      destruct (run_partition_start _ _ Hp s' Hs') as (y & Hy & <-).
      apply (times_sorted_head stop rest Hs2 y Hy). }
    assert (Hrs : time r < time stop) by (apply Hlt2; now left).
    apply in_app_or in Hx. destruct Hx as [Hx | Hx].
    { (* a sample before the run *)
      rewrite Forall_forall in Hgap. pose proof (Hgap x Hx) as Hidle.
      cbn beta in Hidle. split; [congruence|].
      intros _ s [<- | Hs] (Hlo & Hhi); cbn [fst snd] in *.
      - assert (time x < time r) by (apply Hlt1; [exact Hx | now left]). lra.
      - assert (time x < time stop).
        { apply Hlt1; [exact Hx|]. apply in_or_app. right. now left. }
        specialize (Hlow s Hs). lra. }
    apply in_app_or in Hx. destruct Hx as [Hx | Hx].
    { (* a sample of the run *)
      rewrite Forall_forall in Hrun. pose proof (Hrun x Hx) as Hbusy.
      cbn beta in Hbusy. split; [|congruence].
      intros _. exists (time r, time stop). split; [now left|].
      split; cbn [fst snd].
      - apply (times_sorted_head r run Hsrun x Hx).
      - apply Hlt2; [exact Hx | now left]. }
    (* a sample from the closing one on *)
    destruct (IH Hs2 x Hx) as (Hin & Hout).
    assert (Hge : time stop <= time x)
      by (apply (times_sorted_head stop rest Hs2 x Hx)).
    split.
    + intro Ha. destruct (Hin Ha) as (s & Hs & Hins).
      exists s. split; [now right | exact Hins].
    + intros Ha s [<- | Hs].
      * intros (_ & Hhi). cbn [snd] in Hhi. lra.
      * apply Hout; assumption.
Qed.

(** Intervals that are apart share no point. *)
Lemma separated_inside_unique (spans : list (Q * Q)) (t : Q) :
  separated spans ->
  forall s s', In s spans -> In s' spans ->
               inside t s -> inside t s' -> s = s'.
Proof.
  induction spans as [|s0 spans IH]; intros Hsep s s' Hs Hs' Hi Hi';
    [destruct Hs|].
  cbn [separated] in Hsep. destruct Hsep as (_ & Hnext & Hsep).
  destruct Hs as [<- | Hs], Hs' as [<- | Hs'].
  - reflexivity.
  - exfalso. specialize (Hnext s' Hs').
    destruct Hi as (_ & Hhi), Hi' as (Hlo & _). lra.
  - exfalso. specialize (Hnext s Hs).
    destruct Hi as (Hlo & _), Hi' as (_ & Hhi). lra.
  - apply IH; assumption.
Qed.

End Spans.

(** ** A table that ends on an active run *)

Section FinalRun.

Variable threshold : Q.

Lemma rising_app (prev : bool) (l1 l2 : DataFrame) :
  rising threshold prev (l1 ++ l2)
  = rising threshold prev l1
    ++ rising threshold (flag_after threshold prev l1) l2.
Proof.
  revert prev. induction l1 as [|x l1 IH]; intro prev; [reflexivity|].
  cbn [app rising flag_after].
  destruct (negb prev && active threshold x)%bool; rewrite IH; reflexivity.
Qed.

Lemma falling_app (prev : bool) (l1 l2 : DataFrame) :
  falling threshold prev (l1 ++ l2)
  = falling threshold prev l1
    ++ falling threshold (flag_after threshold prev l1) l2.
Proof.
  revert prev. induction l1 as [|x l1 IH]; intro prev; [reflexivity|].
  cbn [app falling flag_after].
  destruct (prev && negb (active threshold x))%bool; rewrite IH; reflexivity.
Qed.

Lemma ends_idle_tail (x y : Row) (l : DataFrame) :
  ends_idle threshold (x :: y :: l) -> ends_idle threshold (y :: l).
Proof.
  intros H r Hr. apply H.
  change (x :: y :: l) with ([x] ++ y :: l).
  rewrite last_sample_app by discriminate. exact Hr.
Qed.

Lemma ends_idle_cons (x : Row) (l : DataFrame) :
  l <> [] -> ends_idle threshold l -> ends_idle threshold (x :: l).
Proof.
  intros Hne H r Hr. apply H.
  change (x :: l) with ([x] ++ l) in Hr.
  rewrite last_sample_app in Hr by exact Hne. exact Hr.
Qed.

Lemma flag_after_ends_idle (prev : bool) (x : Row) (l : DataFrame) :
  ends_idle threshold (x :: l) ->
  flag_after threshold prev (x :: l) = false.
Proof.
  revert prev x. induction l as [|y l IH]; intros prev x H.
  - cbn [flag_after]. apply H. reflexivity.
  - change (flag_after threshold prev (x :: y :: l))
      with (flag_after threshold (active threshold x) (y :: l)).
    apply IH. apply (ends_idle_tail x), H.
Qed.

(** A table ends inactive (or is empty), or it ends on a maximal run of
    active samples that follows a table ending inactive. *)
Lemma final_run_split (df : DataFrame) :
  ends_idle threshold df \/
  exists pre r run,
    df = pre ++ r :: run /\ ends_idle threshold pre /\ Forall (busy threshold) (r :: run).
Proof.
  induction df as [|x df IH].
  - left. intros r Hr. discriminate.
  - destruct IH as [Hidle | (pre & r & run & -> & Hpre & Hrun)].
    + destruct df as [|y df].
      * destruct (active threshold x) eqn:Hx.
        -- right. exists [], x, []. repeat split.
           ++ intros r Hr. discriminate.
           ++ constructor; [exact Hx | constructor].
        -- left. intros r Hr. injection Hr as <-. exact Hx.
      * left. apply ends_idle_cons; [discriminate | exact Hidle].
    + destruct pre as [|p pre].
      * destruct (active threshold x) eqn:Hx.
        -- right. exists [], x, (r :: run). repeat split.
           ++ intros r0 Hr0. discriminate.
           ++ constructor; [exact Hx | exact Hrun].
        -- right. exists [x], r, run. repeat split.
           ++ intros r0 Hr0. injection Hr0 as <-. exact Hx.
           ++ exact Hrun.
      * right. exists (x :: p :: pre), r, run. repeat split.
        -- apply ends_idle_cons; [discriminate | exact Hpre].
        -- exact Hrun.
Qed.

Lemma ends_busy_not_idle (df : DataFrame) :
  ends_busy threshold df -> ~ ends_idle threshold df.
Proof.
  intros (r & Hr & Ha) H. specialize (H r Hr). congruence.
Qed.

(** No falling edge comes with the final run; its rising edge is there
    unless the run begins the table. *)
Lemma final_run_edges (pre : DataFrame) (r : Row) (run : DataFrame) :
  ends_idle threshold pre ->
  Forall (busy threshold) (r :: run) ->
  pulse_ends threshold (pre ++ r :: run) = pulse_ends threshold pre
  /\ (pre = [] -> pulse_starts threshold (pre ++ r :: run) = [])
  /\ (pre <> [] ->
      pulse_starts threshold (pre ++ r :: run)
      = pulse_starts threshold pre ++ [time r]).
Proof.
  intros Hpre Hrun.
  pose proof (Forall_inv Hrun) as Hr. cbn beta in Hr.
  pose proof (Forall_inv_tail Hrun) as Hrun'.
  assert (Hf : falling threshold true run = []).
  { rewrite <- (app_nil_r run).
    apply (falling_busy threshold run [] Hrun'). }
  assert (Hs : rising threshold true run = []).
  { rewrite <- (app_nil_r run).
    apply (rising_busy threshold run [] Hrun'). }
  destruct pre as [|x pre].
  - cbn [app]. rewrite pulse_ends_cons, pulse_starts_cons.
    unfold busy in Hr. rewrite Hr, Hf, Hs.
    split; [reflexivity|]. split; [reflexivity | congruence].
  - cbn [app]. rewrite !pulse_ends_cons, !pulse_starts_cons.
    rewrite falling_app, rising_app.
    change (flag_after threshold (active threshold x) pre)
      with (flag_after threshold false (x :: pre)).
    rewrite (flag_after_ends_idle false x pre Hpre).
    cbn [rising falling]. unfold busy in Hr. rewrite Hr.
    cbn [negb andb]. rewrite Hf, Hs, app_nil_r.
    split; [reflexivity|]. split; [discriminate | reflexivity].
Qed.

End FinalRun.

Lemma combine_app_left {A B : Type} (a c : list A) (b : list B) :
  length a = length b -> combine (a ++ c) b = combine a b.
Proof.
  revert b. induction a as [|x a IH]; intros [|y b] H; try discriminate.
  - destruct c; reflexivity.
  - cbn [app combine]. f_equal. apply IH. now injection H.
Qed.

(** ** Detection reads two columns *)

Lemma samples_time (df : DataFrame) : map time df = map fst (samples df).
Proof. unfold samples. rewrite map_map. reflexivity. Qed.

Lemma samples_turbulence (df : DataFrame) :
  map turbulence df = map snd (samples df).
Proof. unfold samples. rewrite map_map. reflexivity. Qed.

Lemma samples_of_samples (s : list (Q * Q)) : samples (of_samples s) = s.
Proof.
  unfold samples, of_samples. rewrite map_map.
  induction s as [|[t v] s IH]; [reflexivity|].
  cbn [map fst snd time turbulence]. f_equal. exact IH.
Qed.

(** ** The scenario of the specification *)

(** C1.  On a table whose time and turbulence columns are the series
    [(0,1),(1,1),(2,15),(3,15),(4,1),(5,20),(6,1)], with threshold 10: the
    flags are F F T T F T F, the changes NaN 0 1 0 -1 1 -1, the rising
    edges open at times 2 and 5, the falling edges close at times 4 and 6,
    the paired intervals are [(2,4),(5,6)] and the pulse count is 2. *)
Theorem scenario_intervals (df : DataFrame) :
  samples df = scenario ->
  pulse_active 10 df = [false; false; true; true; false; true; false]
  /\ pulse_changes 10 df
     = [None; Some 0; Some 1; Some 0; Some (-1); Some 1; Some (-1)]%Z
  /\ pulse_starts 10 df = [2; 5]
  /\ pulse_ends 10 df = [4; 6]
  /\ pulse_spans 10 df = [(2, 4); (5, 6)]
  /\ n_pulses 10 df = 2%nat.
Proof.
  intro H.
  unfold n_pulses, pulse_spans, pulse_starts, pulse_ends, pulse_changes,
    pulse_active.
  rewrite samples_time, samples_turbulence, H.
  repeat split; reflexivity.
Qed.

Lemma scenario_intervals_witness :
  samples (of_samples scenario) = scenario
  /\ pulse_active 10 (of_samples scenario)
     = [false; false; true; true; false; true; false]
  /\ pulse_changes 10 (of_samples scenario)
     = [None; Some 0; Some 1; Some 0; Some (-1); Some 1; Some (-1)]%Z
  /\ pulse_starts 10 (of_samples scenario) = [2; 5]
  /\ pulse_ends 10 (of_samples scenario) = [4; 6]
  /\ pulse_spans 10 (of_samples scenario) = [(2, 4); (5, 6)]
  /\ n_pulses 10 (of_samples scenario) = 2%nat.
Proof.
  split; [reflexivity|].
  apply (scenario_intervals (of_samples scenario)). reflexivity.
Defined.

(** ** Series without a crossing *)

Section Flat.

Variable threshold : Q.

Lemma idle_no_edges (df : DataFrame) :
  Forall (idle threshold) df ->
  rising threshold false df = [] /\ falling threshold false df = [].
Proof.
  intro H. rewrite <- (app_nil_r df).
  rewrite (rising_idle threshold df [] H), (falling_idle threshold df [] H).
  split; reflexivity.
Qed.

Lemma busy_no_edges (df : DataFrame) :
  Forall (busy threshold) df ->
  pulse_starts threshold df = [] /\ pulse_ends threshold df = [].
Proof.
  intro H. destruct df as [|r df]; [split; reflexivity|].
  pose proof (Forall_inv H) as Hr. cbn beta in Hr.
  pose proof (Forall_inv_tail H) as Hdf.
  rewrite pulse_starts_cons, pulse_ends_cons, Hr.
  rewrite <- (app_nil_r df).
  rewrite (rising_busy threshold df [] Hdf),
          (falling_busy threshold df [] Hdf).
  split; reflexivity.
Qed.

End Flat.

(** C8.  When every value of the series is at or below the threshold,
    there is no rising and no falling edge: detection yields the empty
    sequence of intervals and the pulse count is 0. *)
Theorem below_threshold_no_interval (threshold : Q) (df : DataFrame) :
  Forall (fun r => turbulence r <= threshold) df ->
  pulse_starts threshold df = []
  /\ pulse_ends threshold df = []
  /\ pulse_spans threshold df = []
  /\ n_pulses threshold df = 0%nat.
Proof.
  intro H.
  assert (Hidle : Forall (idle threshold) df).
  { eapply Forall_impl; [|exact H]. intros r Hr. apply Qgtb_false, Hr. }
  assert (Hs : pulse_starts threshold df = []
               /\ pulse_ends threshold df = []).
  { destruct df as [|r df]; [split; reflexivity|].
    rewrite pulse_starts_cons, pulse_ends_cons.
    rewrite (Forall_inv Hidle).
    apply (idle_no_edges threshold df (Forall_inv_tail Hidle)). }
  destruct Hs as (Hs & He).
  unfold n_pulses, pulse_spans. rewrite Hs, He. repeat split; reflexivity.
Qed.

Lemma below_threshold_no_interval_witness :
  Forall (fun r => turbulence r <= 10) (of_samples [(0, 1); (1, 4); (2, 10)])
  /\ pulse_starts 10 (of_samples [(0, 1); (1, 4); (2, 10)]) = []
  /\ pulse_ends 10 (of_samples [(0, 1); (1, 4); (2, 10)]) = []
  /\ pulse_spans 10 (of_samples [(0, 1); (1, 4); (2, 10)]) = []
  /\ n_pulses 10 (of_samples [(0, 1); (1, 4); (2, 10)]) = 0%nat.
Proof.
  assert (H : Forall (fun r => turbulence r <= 10)
                     (of_samples [(0, 1); (1, 4); (2, 10)])).
  { repeat constructor; cbn; discriminate. }
  split; [exact H|].
  apply (below_threshold_no_interval 10 _ H).
Defined.

(** ** Series that begin and end inactive *)

Lemma flags_order (threshold : Q) (l : DataFrame) :
  (Forall (idle threshold) l
   <-> Forall (fun x => ~ threshold < turbulence x) l)
  /\ (Forall (busy threshold) l
      <-> Forall (fun x => threshold < turbulence x) l).
Proof.
  split; split; intro H; (eapply Forall_impl; [|exact H]); intros x Hx;
    unfold idle, busy in *; cbn beta in *;
    first [apply active_false; exact Hx | apply active_true; exact Hx].
Qed.

(** The partition read with the flags of the code is the partition read
    with the order on the values. *)
Lemma run_partition_pulse_runs
      (threshold : Q) (df : DataFrame) (spans : list (Q * Q)) :
  run_partition threshold df spans <-> pulse_runs threshold df spans.
Proof.
  split.
  - induction 1 as [gap Hgap | gap r run stop rest spans Hgap Hrun Hstop _ IH].
    + apply runs_none. apply (flags_order threshold gap), Hgap.
    + apply runs_next; [| | |exact IH].
      * apply (flags_order threshold gap), Hgap.
      * apply (flags_order threshold (r :: run)), Hrun.
      * apply active_false, Hstop.
  - induction 1 as [gap Hgap | gap r run stop rest spans Hgap Hrun Hstop _ IH].
    + apply rp_idle. apply (flags_order threshold gap), Hgap.
    + apply rp_run; [| | |exact IH].
      * apply (flags_order threshold gap), Hgap.
      * apply (flags_order threshold (r :: run)), Hrun.
      * apply active_false, Hstop.
Qed.

Lemma pulse_runs_unique
      (threshold : Q) (df : DataFrame) (s1 s2 : list (Q * Q)) :
  pulse_runs threshold df s1 -> pulse_runs threshold df s2 -> s1 = s2.
Proof.
  intros H1 H2. apply run_partition_pulse_runs in H1, H2.
  apply (run_partition_unique threshold df s1 s2 H1 H2).
Qed.

(** C10.  When the first and the last value of the series are at or below
    the threshold, detection finds as many start as end boundaries, and
    the paired intervals are, in order, the maximal contiguous runs of
    samples above the threshold: each opens at the time of the first
    sample of its run and closes at the time of the first sample after the
    run that is not above the threshold.  ([pulse_runs] admits one list of
    intervals per series, see [pulse_runs_unique]; that the times increase
    is not needed for this.) *)
Theorem detected_spans_are_active_runs
        (threshold : Q) (df : DataFrame) (first last : Row) :
  increasing_times df ->
  first_sample df = Some first -> turbulence first <= threshold ->
  last_sample df = Some last -> turbulence last <= threshold ->
  length (pulse_starts threshold df) = length (pulse_ends threshold df)
  /\ n_pulses threshold df = length (pulse_spans threshold df)
  /\ pulse_runs threshold df (pulse_spans threshold df).
Proof.
  intros _ Hfirst Hf Hlast Hl.
  assert (H1 : starts_idle threshold df).
  { exists first. split; [exact Hfirst | apply Qgtb_false, Hf]. }
  assert (H2 : ends_idle threshold df).
  { intros r Hr. rewrite Hlast in Hr. injection Hr as <-.
    apply Qgtb_false, Hl. }
  destruct (idle_edges_partition threshold df H1 H2) as (Hp & Hlen).
  split; [exact Hlen|]. split.
  - unfold n_pulses, pulse_spans. rewrite length_combine, <- Hlen.
    symmetry. apply Nat.min_id.
  - apply run_partition_pulse_runs, Hp.
Qed.

Lemma detected_spans_are_active_runs_witness :
  increasing_times (of_samples scenario)
  /\ first_sample (of_samples scenario) = Some (mkRow 0 1 1 1)
  /\ turbulence (mkRow 0 1 1 1) <= 10
  /\ last_sample (of_samples scenario) = Some (mkRow 6 1 1 1)
  /\ turbulence (mkRow 6 1 1 1) <= 10
  /\ length (pulse_starts 10 (of_samples scenario))
     = length (pulse_ends 10 (of_samples scenario))
  /\ n_pulses 10 (of_samples scenario)
     = length (pulse_spans 10 (of_samples scenario))
  /\ pulse_runs 10 (of_samples scenario)
                (pulse_spans 10 (of_samples scenario)).
Proof.
  assert (H1 : increasing_times (of_samples scenario))
    by (repeat constructor).
  assert (H2 : turbulence (mkRow 0 1 1 1) <= 10) by (cbn; discriminate).
  assert (H3 : turbulence (mkRow 6 1 1 1) <= 10) by (cbn; discriminate).
  split; [exact H1|]. split; [reflexivity|]. split; [exact H2|].
  split; [reflexivity|]. split; [exact H3|].
  apply (detected_spans_are_active_runs 10 (of_samples scenario) _ _
           H1 eq_refl H2 eq_refl H3).
Defined.

(** The intervals of the scenario are its two runs above 10. *)
Example scenario_runs :
  pulse_runs 10 (of_samples scenario) [(2, 4); (5, 6)].
Proof.
  apply (runs_next 10
           [mkRow 0 1 1 1; mkRow 1 1 1 1] (mkRow 2 1 1 15) [mkRow 3 1 1 15]
           (mkRow 4 1 1 1) [mkRow 5 1 1 20; mkRow 6 1 1 1] [(5, 6)]).
  - repeat constructor; cbn; discriminate.
  - repeat constructor.
  - cbn; discriminate.
  - apply (runs_next 10 [mkRow 4 1 1 1] (mkRow 5 1 1 20) []
             (mkRow 6 1 1 1) [] []).
    + repeat constructor; cbn; discriminate.
    + repeat constructor.
    + cbn; discriminate.
    + apply runs_none. repeat constructor; cbn; discriminate.
Qed.

(** With increasing times the intervals of such a series are in order and
    apart, every active sample lies in exactly one of them and every
    inactive sample in none. *)
Lemma idle_spans_cover (threshold : Q) (df : DataFrame) :
  increasing_times df ->
  starts_idle threshold df ->
  ends_idle threshold df ->
  separated (pulse_spans threshold df)
  /\ forall x, In x df ->
       (active threshold x = true ->
        exists s, In s (pulse_spans threshold df)
                  /\ inside (time x) s
                  /\ forall s', In s' (pulse_spans threshold df) ->
                                inside (time x) s' -> s' = s)
       /\ (active threshold x = false ->
           forall s, In s (pulse_spans threshold df) ->
                     ~ inside (time x) s).
Proof.
  intros Hinc Hfirst Hlast.
  destruct (idle_edges_partition threshold df Hfirst Hlast) as (Hp & _).
  pose proof (increasing_times_sorted df Hinc) as Hsorted.
  pose proof (run_partition_separated threshold df _ Hp Hsorted) as Hsep.
  split; [exact Hsep|].
  intros x Hx.
  destruct (run_partition_cover threshold df _ Hp Hsorted x Hx) as (Hin & Hout).
  split; [|exact Hout].
  intro Ha. destruct (Hin Ha) as (s & Hs & Hi).
  exists s. split; [exact Hs|]. split; [exact Hi|].
  intros s' Hs' Hi'.
  apply (separated_inside_unique _ (time x) Hsep s' s); assumption.
Qed.

(** A series that begins inactive has its intervals in order and apart,
    however it ends. *)
Lemma idle_start_spans_separated (threshold : Q) (df : DataFrame) :
  increasing_times df ->
  starts_idle threshold df ->
  separated (pulse_spans threshold df).
Proof.
  intros Hinc Hfirst.
  destruct (final_run_split threshold df)
    as [Hlast | (pre & r & run & -> & Hpre & Hrun)].
  - apply (idle_spans_cover threshold df Hinc Hfirst Hlast).
  - destruct (final_run_edges threshold pre r run Hpre Hrun)
      as (Hends & _ & Hstarts).
    assert (Hfirst' : starts_idle threshold pre).
    { destruct Hfirst as (x & Hx & Ha). destruct pre as [|p pre].
      - cbn in Hx. injection Hx as <-.
        pose proof (Forall_inv Hrun) as Hr. cbn beta in Hr. congruence.
      - exists x. split; [exact Hx | exact Ha]. }
    assert (Hne : pre <> []).
    { destruct Hfirst' as (x & Hx & _). intros ->. discriminate. }
    pose proof (increasing_times_app pre _ Hinc) as Hinc'.
    destruct (idle_edges_partition threshold pre Hfirst' Hpre) as (_ & Hlen).
    unfold pulse_spans. rewrite Hends, (Hstarts Hne).
    rewrite (combine_app_left _ _ _ Hlen).
    apply (idle_spans_cover threshold pre Hinc' Hfirst' Hpre).
Qed.

(** ** Series that end while active *)

(** C4, as stated, fails: on the series [(0,1),(1,15)] with threshold 10,
    which ends active, the single active run is the final one; it is
    shaded nowhere, yet its rising edge at time 1 is in [pulse_starts] and
    the pulse count is 1, not 0. *)
Lemma final_run_counted_counterexample :
  ends_busy 10 trailing_pulse
  /\ pulse_starts 10 trailing_pulse = [1]
  /\ pulse_ends 10 trailing_pulse = []
  /\ pulse_spans 10 trailing_pulse = []
  /\ n_pulses 10 trailing_pulse = 1%nat
  /\ n_pulses 10 trailing_pulse <> length (pulse_spans 10 trailing_pulse).
Proof.
  split; [eexists; split; reflexivity|].
  repeat split; try reflexivity. discriminate.
Qed.

(** C4, amended.  A series whose last sample is active ends on a maximal
    run of active samples [r :: run], after a part [pre] that is empty or
    ends inactive.  Every falling edge of the series is one of [pre]: the
    final run has none.  Unless the run begins the series, its rising edge
    is emitted and counted: [n_pulses] is one more than for [pre].  When
    the series begins inactive, the shaded pairs are those of [pre], so the
    final interval is dropped from the shading only, and [n_pulses] is one
    more than the number of shaded intervals. *)
Theorem final_run_counted_not_shaded (threshold : Q) (df : DataFrame) :
  ends_busy threshold df ->
  exists pre r run,
    df = pre ++ r :: run
    /\ ends_idle threshold pre
    /\ Forall (busy threshold) (r :: run)
    /\ pulse_ends threshold df = pulse_ends threshold pre
    /\ (pre <> [] ->
        pulse_starts threshold df = pulse_starts threshold pre ++ [time r]
        /\ n_pulses threshold df = S (n_pulses threshold pre))
    /\ (starts_idle threshold df ->
        pulse_spans threshold df = pulse_spans threshold pre
        /\ n_pulses threshold df = S (length (pulse_spans threshold df))).
Proof.
  intro Hbusy.
  destruct (final_run_split threshold df)
    as [Hidle | (pre & r & run & -> & Hpre & Hrun)].
  { exfalso. apply (ends_busy_not_idle threshold df Hbusy Hidle). }
  exists pre, r, run.
  destruct (final_run_edges threshold pre r run Hpre Hrun)
    as (Hends & _ & Hstarts).
  split; [reflexivity|]. split; [exact Hpre|]. split; [exact Hrun|].
  split; [exact Hends|]. split.
  - intro Hne. split; [exact (Hstarts Hne)|].
    unfold n_pulses. rewrite (Hstarts Hne), length_app. cbn [length]. lia.
  - intro Hfirst.
    assert (Hfirst' : starts_idle threshold pre).
    { destruct Hfirst as (x & Hx & Ha). destruct pre as [|p pre].
      - cbn in Hx. injection Hx as <-.
        pose proof (Forall_inv Hrun) as Hr. cbn beta in Hr. congruence.
      - exists x. split; [exact Hx | exact Ha]. }
    assert (Hne : pre <> []).
    { destruct Hfirst' as (x & Hx & _). intros ->. discriminate. }
    destruct (idle_edges_partition threshold pre Hfirst' Hpre) as (_ & Hlen).
    assert (Hspans : pulse_spans threshold (pre ++ r :: run)
                     = pulse_spans threshold pre).
    { unfold pulse_spans. rewrite Hends, (Hstarts Hne).
      apply (combine_app_left _ _ _ Hlen). }
    split; [exact Hspans|].
    rewrite Hspans. unfold n_pulses, pulse_spans.
    rewrite (Hstarts Hne), length_app, length_combine, <- Hlen, Nat.min_id.
    cbn [length]. lia.
Qed.

Lemma final_run_counted_not_shaded_witness :
  ends_busy 10 trailing_pulse
  /\ exists pre r run,
       trailing_pulse = pre ++ r :: run
       /\ ends_idle 10 pre
       /\ Forall (busy 10) (r :: run)
       /\ pulse_ends 10 trailing_pulse = pulse_ends 10 pre
       /\ (pre <> [] ->
           pulse_starts 10 trailing_pulse = pulse_starts 10 pre ++ [time r]
           /\ n_pulses 10 trailing_pulse = S (n_pulses 10 pre))
       /\ (starts_idle 10 trailing_pulse ->
           pulse_spans 10 trailing_pulse = pulse_spans 10 pre
           /\ n_pulses 10 trailing_pulse
              = S (length (pulse_spans 10 trailing_pulse))).
Proof.
  assert (H : ends_busy 10 trailing_pulse).
  { eexists. split; reflexivity. }
  split; [exact H|].
  apply (final_run_counted_not_shaded 10 trailing_pulse H).
Defined.

(** ** Failure modes *)

Lemma getitem_map {A B : Type} (f : A -> B) (s : list A) (mask : list bool) :
  Series.getitem (map f s) mask = map f (Series.getitem s mask).
Proof.
  revert mask. induction s as [|x s IH]; intros [|b mask]; try reflexivity.
  cbn [map Series.getitem]. destruct b; cbn [map]; rewrite IH; reflexivity.
Qed.

Lemma retime_columns (f : Q -> Q) (df : DataFrame) :
  map time (retime f df) = map f (map time df)
  /\ map turbulence (retime f df) = map turbulence df.
Proof.
  unfold retime. rewrite !map_map. split; reflexivity.
Qed.

Lemma combine_map {A B : Type} (f : A -> B) (xs ys : list A) :
  combine (map f xs) (map f ys)
  = map (fun p => (f (fst p), f (snd p))) (combine xs ys).
Proof.
  revert ys. induction xs as [|x xs IH]; intros [|y ys]; try reflexivity.
  cbn [map combine fst snd]. f_equal. apply IH.
Qed.

(** C5, as stated, fails: detection has no input check.  On the series
    [(1,1),(0,15),(0,1)], whose times do not increase, it returns the start
    0, the end 0 and the pair (0,0), with a count of 1; on the empty
    series it returns no boundary and a count of 0.  Nothing is
    rejected. *)
Lemma detection_accepts_any_table_counterexample :
  ~ increasing_times unordered
  /\ pulse_starts turbulence_threshold unordered = [0]
  /\ pulse_ends turbulence_threshold unordered = [0]
  /\ pulse_spans turbulence_threshold unordered = [(0, 0)]
  /\ n_pulses turbulence_threshold unordered = 1%nat
  /\ pulse_starts turbulence_threshold [] = []
  /\ pulse_ends turbulence_threshold [] = []
  /\ pulse_spans turbulence_threshold [] = []
  /\ n_pulses turbulence_threshold [] = 0%nat.
Proof.
  split.
  - intro H. inversion H as [| |r r' df Hlt Hrest]; subst.
    inversion Hrest as [| |? ? ? Hlt' _]; subst.
    cbn in Hlt'. discriminate Hlt'.
  - repeat split; reflexivity.
Qed.

(** C5, amended.  Detection does not check its input.  On the empty
    series it returns no start, no end, no pair and a count of 0.  The
    times are never compared, only copied out at the steps of the
    indicator: replacing the times of a series by any others, increasing
    or not, replaces each boundary by the new time of its row and leaves
    the number of boundaries as it was.  So a series with non-increasing
    times is treated like any other. *)
Theorem detection_never_fails (threshold : Q) (f : Q -> Q) (df : DataFrame) :
  pulse_starts threshold [] = []
  /\ pulse_ends threshold [] = []
  /\ pulse_spans threshold [] = []
  /\ n_pulses threshold [] = 0%nat
  /\ pulse_active threshold (retime f df) = pulse_active threshold df
  /\ pulse_starts threshold (retime f df) = map f (pulse_starts threshold df)
  /\ pulse_ends threshold (retime f df) = map f (pulse_ends threshold df)
  /\ pulse_spans threshold (retime f df)
     = map (fun span => (f (fst span), f (snd span))) (pulse_spans threshold df)
  /\ n_pulses threshold (retime f df) = n_pulses threshold df.
Proof.
  destruct (retime_columns f df) as (Ht & Hv).
  assert (Ha : pulse_active threshold (retime f df)
               = pulse_active threshold df).
  { unfold pulse_active. rewrite Hv. reflexivity. }
  assert (Hs : pulse_starts threshold (retime f df)
               = map f (pulse_starts threshold df)).
  { unfold pulse_starts, pulse_changes. rewrite Ha, Ht. apply getitem_map. }
  assert (He : pulse_ends threshold (retime f df)
               = map f (pulse_ends threshold df)).
  { unfold pulse_ends, pulse_changes. rewrite Ha, Ht. apply getitem_map. }
  repeat (split; [reflexivity|]).
  split; [exact Ha|]. split; [exact Hs|]. split; [exact He|]. split.
  - unfold pulse_spans. rewrite Hs, He. apply combine_map.
  - unfold n_pulses. rewrite Hs. apply length_map.
Qed.

(** C6.  With a pulse count of 0 the division of line 113 raises
    [ZeroDivisionError]: no quotient, infinite or other, is returned. *)
Theorem zero_pulses_division_error (d : Q) (df : DataFrame) :
  n_pulses turbulence_threshold df = 0%nat ->
  mean_pulse_spacing d 0 = Raise ZeroDivisionError
  /\ mean_pulse_spacing total_duration (n_pulses turbulence_threshold df)
     = Raise ZeroDivisionError
  /\ forall q,
       mean_pulse_spacing total_duration (n_pulses turbulence_threshold df)
       <> Return q.
Proof.
  intro Hn. rewrite Hn. repeat split; try reflexivity.
  intros q H. discriminate H.
Qed.

Lemma zero_pulses_division_error_witness :
  n_pulses turbulence_threshold (of_samples [(0, 1); (1, 4)]) = 0%nat
  /\ mean_pulse_spacing 10 0 = Raise ZeroDivisionError
  /\ mean_pulse_spacing total_duration
       (n_pulses turbulence_threshold (of_samples [(0, 1); (1, 4)]))
     = Raise ZeroDivisionError
  /\ forall q,
       mean_pulse_spacing total_duration
         (n_pulses turbulence_threshold (of_samples [(0, 1); (1, 4)]))
       <> Return q.
Proof.
  assert (H : n_pulses turbulence_threshold (of_samples [(0, 1); (1, 4)])
              = 0%nat) by reflexivity.
  split; [exact H|].
  apply (zero_pulses_division_error 10 _ H).
Defined.

(** C9.  With a positive count the division of line 113 returns the
    quotient of the duration by the count; for the duration 10.0 and the
    count 2 the quotient is 5. *)
Theorem mean_spacing_quotient (d : Q) (n : nat) :
  (0 < n)%nat ->
  mean_pulse_spacing d n = Return (d / inject_Z (Z.of_nat n))
  /\ (d = total_duration -> n = 2%nat -> d / inject_Z (Z.of_nat n) == 5).
Proof.
  intro Hn. split.
  - destruct n as [|n]; [lia | reflexivity].
  - intros -> ->. reflexivity.
Qed.

Lemma mean_spacing_quotient_witness :
  (0 < 2)%nat
  /\ mean_pulse_spacing total_duration 2
     = Return (total_duration / inject_Z (Z.of_nat 2))
  /\ total_duration / inject_Z (Z.of_nat 2) == 5.
Proof.
  assert (H : (0 < 2)%nat) by lia.
  split; [exact H|].
  destruct (mean_spacing_quotient total_duration 2 H) as (Hq & Hfive).
  split; [exact Hq | exact (Hfive eq_refl eq_refl)].
Defined.

(** ** Runs that touch an end of the series *)

(** C2 at the series [(0,1),(1,15)] and [(0,15),(1,1),(2,15),(3,1)], with
    increasing times and threshold 10.  In the first the sample at time 1
    is active and detection pairs no interval at all.  In the second the
    sample at time 0 is active and the only pair is (2,1), which holds no
    time.  An active sample lies in no returned interval. *)
Theorem active_sample_in_no_interval :
  (increasing_times trailing_pulse
   /\ pulse_spans 10 trailing_pulse = []
   /\ exists r, In r trailing_pulse
                /\ time r = 1 /\ active 10 r = true
                /\ forall s, In s (pulse_spans 10 trailing_pulse) ->
                             ~ inside (time r) s)
  /\ (increasing_times leading_pulse
      /\ pulse_spans 10 leading_pulse = [(2, 1)]
      /\ exists r, In r leading_pulse
                   /\ time r = 0 /\ active 10 r = true
                   /\ forall s, In s (pulse_spans 10 leading_pulse) ->
                                ~ inside (time r) s).
Proof.
  split.
  - split; [repeat constructor|]. split; [reflexivity|].
    exists (mkRow 1 1 1 15). split; [right; now left|].
    split; [reflexivity|]. split; [reflexivity|].
    intros s [].
  - split; [repeat constructor|]. split; [reflexivity|].
    exists (mkRow 0 1 1 15). split; [now left|].
    split; [reflexivity|]. split; [reflexivity|].
    intros s [<- | []] (Hlo & _). cbn in Hlo. apply Hlo. reflexivity.
Qed.

(** C3 at the series [(0,15),(1,1),(2,15),(3,1)], with increasing times and
    threshold 10.  The first run has no rising edge, so the rising edge of
    the second run, at time 2, is paired with the falling edge of the
    first, at time 1: the one returned interval is (2,1), whose start is
    after its end. *)
Theorem leading_pulse_reversed_interval :
  increasing_times leading_pulse
  /\ pulse_starts 10 leading_pulse = [2]
  /\ pulse_ends 10 leading_pulse = [1; 3]
  /\ pulse_spans 10 leading_pulse = [(2, 1)]
  /\ (forall s, In s (pulse_spans 10 leading_pulse) -> snd s < fst s)
  /\ ~ separated (pulse_spans 10 leading_pulse).
Proof.
  split; [repeat constructor|].
  split; [reflexivity|]. split; [reflexivity|]. split; [reflexivity|].
  split.
  - intros s [<- | []]. reflexivity.
  - intros (Hlt & _). cbn in Hlt. discriminate Hlt.
Qed.

(** C7 at the series [(0,15),(1,15),(2,15)], all above the threshold 10:
    the indicator never changes, there is no rising and no falling edge,
    detection returns no interval and the pulse count is 0.  The same holds
    for every series that is entirely above the threshold
    ([busy_no_edges]). *)
Theorem saturated_no_interval :
  Forall (fun r => 10 < turbulence r) saturated
  /\ increasing_times saturated
  /\ pulse_starts 10 saturated = []
  /\ pulse_ends 10 saturated = []
  /\ pulse_spans 10 saturated = []
  /\ n_pulses 10 saturated = 0%nat.
Proof.
  split; [repeat constructor|]. split; [repeat constructor|].
  repeat split; reflexivity.
Qed.


(** * Further properties of the detection *)

(** ** The changes of the indicator (line 59) *)

Lemma diff_from_nth (prev : Z) (s : list Z) (i : nat) :
  nth_error (Series.diff_from prev s) i
  = match nth_error (prev :: s) i, nth_error s i with
    | Some p, Some x => Some (Some (x - p)%Z)
    | _, _ => None
    end.
Proof.
  revert prev i. induction s as [|x s IH]; intros prev i.
  - destruct i as [|[|i]]; reflexivity.
  - destruct i as [|i]; [reflexivity|].
    cbn [Series.diff_from nth_error]. rewrite IH. reflexivity.
Qed.

Lemma flags_nth (threshold : Q) (df : DataFrame) (i : nat) :
  nth_error (Series.astype_int (pulse_active threshold df)) i
  = option_map (fun r => Z.b2z (active threshold r)) (nth_error df i).
Proof.
  unfold Series.astype_int, pulse_active, Series.gt.
  rewrite !map_map. rewrite nth_error_map. reflexivity.
Qed.

Lemma pulse_changes_length (threshold : Q) (df : DataFrame) :
  length (pulse_changes threshold df) = length df.
Proof.
  unfold pulse_changes, pulse_active, Series.gt, Series.astype_int.
  destruct df as [|x0 df]; [reflexivity|].
  cbn [map Series.diff length]. f_equal.
  generalize (Z.b2z (Series.Qgtb (turbulence x0) threshold)).
  induction df as [|x df IH]; intro z; [reflexivity|].
  cbn [map Series.diff_from length]. f_equal. apply IH.
Qed.

Lemma pulse_changes_nth (threshold : Q) (df : DataFrame) (i : nat) :
  nth_error (pulse_changes threshold df) (S i)
  = match nth_error df i, nth_error df (S i) with
    | Some p, Some r =>
        Some (Some (Z.b2z (active threshold r) - Z.b2z (active threshold p))%Z)
    | _, _ => None
    end.
Proof.
  pose proof (flags_nth threshold df i) as Fi.
  pose proof (flags_nth threshold df (S i)) as Fsi.
  unfold pulse_changes.
  destruct (Series.astype_int (pulse_active threshold df)) as [|z zs].
  - cbn [Series.diff nth_error].
    destruct (nth_error df i); [destruct i; discriminate Fi | reflexivity].
  - change (nth_error (z :: zs) (S i)) with (nth_error zs i) in Fsi.
    change (nth_error (Series.diff (z :: zs)) (S i))
      with (nth_error (Series.diff_from z zs) i).
    rewrite diff_from_nth, Fi, Fsi.
    destruct (nth_error df i), (nth_error df (S i)); reflexivity.
Qed.

(** X1.  [pulse_changes] has one entry per row, on every table.  The
    entry of the first row is NaN.  The entry of every other row is the
    flag of the row minus the flag of the row before, so it is -1, 0 or 1:
    it is 1 exactly when the row before is not above the threshold and the
    row is, and -1 exactly when the row before is above the threshold and
    the row is not. *)
Theorem pulse_changes_entries (threshold : Q) (df : DataFrame) :
  length (pulse_changes threshold df) = length df
  /\ nth_error (pulse_changes threshold df) 0
     = option_map (fun _ => None) (nth_error df 0)
  /\ (forall i,
        nth_error (pulse_changes threshold df) (S i)
        = match nth_error df i, nth_error df (S i) with
          | Some p, Some r =>
              Some (Some (Z.b2z (active threshold r)
                          - Z.b2z (active threshold p))%Z)
          | _, _ => None
          end)
  /\ (forall i,
        nth_error (pulse_changes threshold df) (S i) = Some (Some 1%Z)
        <-> exists p r,
              nth_error df i = Some p /\ nth_error df (S i) = Some r
              /\ ~ threshold < turbulence p /\ threshold < turbulence r)
  /\ (forall i,
        nth_error (pulse_changes threshold df) (S i) = Some (Some (-1)%Z)
        <-> exists p r,
              nth_error df i = Some p /\ nth_error df (S i) = Some r
              /\ threshold < turbulence p /\ ~ threshold < turbulence r)
  /\ (forall i d,
        nth_error (pulse_changes threshold df) (S i) = Some (Some d) ->
        d = (-1)%Z \/ d = 0%Z \/ d = 1%Z).
Proof.
  split; [apply pulse_changes_length|].
  split; [destruct df; reflexivity|].
  split; [apply pulse_changes_nth|].
  split; [|split].
  - intro i. rewrite pulse_changes_nth. split.
    + destruct (nth_error df i) as [p|]; [|discriminate].
      destruct (nth_error df (S i)) as [r|]; [|discriminate].
      intro H. exists p, r. split; [reflexivity|]. split; [reflexivity|].
      rewrite <- active_false, <- active_true.
      destruct (active threshold p), (active threshold r);
        cbn in H; try discriminate H; split; reflexivity.
    + intros (p & r & -> & -> & Hp & Hr).
      apply active_false in Hp. apply active_true in Hr.
      rewrite Hp, Hr. reflexivity.
  - intro i. rewrite pulse_changes_nth. split.
    + destruct (nth_error df i) as [p|]; [|discriminate].
      destruct (nth_error df (S i)) as [r|]; [|discriminate].
      intro H. exists p, r. split; [reflexivity|]. split; [reflexivity|].
      rewrite <- active_false, <- active_true.
      destruct (active threshold p), (active threshold r);
        cbn in H; try discriminate H; split; reflexivity.
    + intros (p & r & -> & -> & Hp & Hr).
      apply active_true in Hp. apply active_false in Hr.
      rewrite Hp, Hr. reflexivity.
  - intros i d. rewrite pulse_changes_nth.
    destruct (nth_error df i) as [p|]; [|discriminate].
    destruct (nth_error df (S i)) as [r|]; [|discriminate].
    intro H. injection H as <-.
    destruct (active threshold p), (active threshold r); cbn; tauto.
Qed.

(** On a one-row table the only change is NaN. *)
Example pulse_changes_one_row :
  pulse_changes 10 (of_samples [(0, 15)]) = [None].
Proof. reflexivity. Qed.

(** ** Where the boundaries are (lines 61 and 63) *)

Section Steps.

Variable threshold : Q.

Lemma rising_In (prev : bool) (df : DataFrame) (t : Q) :
  In t (rising threshold prev df) <->
  (exists r df', df = r :: df' /\ prev = false
                 /\ active threshold r = true /\ time r = t)
  \/ (exists l1 p r l2, df = l1 ++ p :: r :: l2
                        /\ active threshold p = false
                        /\ active threshold r = true /\ time r = t).
Proof.
  split.
  - revert prev. induction df as [|x df IH]; intros prev H; [destruct H|].
    cbn [rising] in H.
    assert (Htail : In t (rising threshold (active threshold x) df) ->
                    (exists r df', x :: df = r :: df' /\ prev = false
                                   /\ active threshold r = true /\ time r = t)
                    \/ (exists l1 p r l2, x :: df = l1 ++ p :: r :: l2
                                          /\ active threshold p = false
                                          /\ active threshold r = true
                                          /\ time r = t)).
    { intro Hin. right.
      destruct (IH _ Hin) as [(r & df' & -> & Hx & Hr & Ht)
                             | (l1 & p & r & l2 & -> & Hp & Hr & Ht)].
      - exists [], x, r, df'. auto.
      - exists (x :: l1), p, r, l2. auto. }
    destruct (negb prev && active threshold x)%bool eqn:E; [|auto].
    destruct H as [<- | H]; [|auto].
    left. exists x, df. apply andb_true_iff in E. destruct E as (E1 & E2).
    apply negb_true_iff in E1. auto.
  - intros [(r & df' & -> & -> & Hr & <-)
           | (l1 & p & r & l2 & -> & Hp & Hr & <-)].
    + cbn [rising]. rewrite Hr. now left.
    + rewrite rising_app. apply in_or_app. right.
      cbn [rising]. rewrite Hp, Hr, andb_false_r. now left.
Qed.

Lemma falling_In (prev : bool) (df : DataFrame) (t : Q) :
  In t (falling threshold prev df) <->
  (exists r df', df = r :: df' /\ prev = true
                 /\ active threshold r = false /\ time r = t)
  \/ (exists l1 p r l2, df = l1 ++ p :: r :: l2
                        /\ active threshold p = true
                        /\ active threshold r = false /\ time r = t).
Proof.
  split.
  - revert prev. induction df as [|x df IH]; intros prev H; [destruct H|].
    cbn [falling] in H.
    assert (Htail : In t (falling threshold (active threshold x) df) ->
                    (exists r df', x :: df = r :: df' /\ prev = true
                                   /\ active threshold r = false /\ time r = t)
                    \/ (exists l1 p r l2, x :: df = l1 ++ p :: r :: l2
                                          /\ active threshold p = true
                                          /\ active threshold r = false
                                          /\ time r = t)).
    { intro Hin. right.
      destruct (IH _ Hin) as [(r & df' & -> & Hx & Hr & Ht)
                             | (l1 & p & r & l2 & -> & Hp & Hr & Ht)].
      - exists [], x, r, df'. auto.
      - exists (x :: l1), p, r, l2. auto. }
    destruct (prev && negb (active threshold x))%bool eqn:E; [|auto].
    destruct H as [<- | H]; [|auto].
    left. exists x, df. apply andb_true_iff in E. destruct E as (E1 & E2).
    apply negb_true_iff in E2. auto.
  - intros [(r & df' & -> & -> & Hr & <-)
           | (l1 & p & r & l2 & -> & Hp & Hr & <-)].
    + cbn [falling]. rewrite Hr. now left.
    + rewrite falling_app. apply in_or_app. right.
      cbn [falling]. rewrite Hp, Hr. cbn [negb]. rewrite andb_false_r.
      cbn [andb]. now left.
Qed.

Lemma step_shift (x : Row) (df : DataFrame) (P : Row -> Row -> Prop) :
  (exists r df', df = r :: df' /\ P x r)
  \/ (exists l1 p r l2, df = l1 ++ p :: r :: l2 /\ P p r)
  <-> exists l1 p r l2, x :: df = l1 ++ p :: r :: l2 /\ P p r.
Proof.
  split.
  - intros [(r & df' & -> & H) | (l1 & p & r & l2 & -> & H)].
    + exists [], x, r, df'. auto.
    + exists (x :: l1), p, r, l2. auto.
  - intros (l1 & p & r & l2 & E & H). destruct l1 as [|y l1].
    + cbn [app] in E. injection E as -> ->. left. exists r, l2. auto.
    + cbn [app] in E. injection E as -> ->. right. exists l1, p, r, l2. auto.
Qed.

End Steps.

(** X2.  A time is in [pulse_starts] exactly when the table has two
    consecutive rows, the first not above the threshold and the second
    above it, and it is the time of the second. *)
Theorem pulse_starts_steps (threshold : Q) (df : DataFrame) (t : Q) :
  In t (pulse_starts threshold df) <->
  exists l1 p r l2,
    df = l1 ++ p :: r :: l2
    /\ (~ threshold < turbulence p /\ threshold < turbulence r /\ time r = t).
Proof.
  destruct df as [|x df].
  - split; [intros [] | intros (l1 & p & r & l2 & E & _)].
    destruct l1; discriminate.
  - rewrite pulse_starts_cons, rising_In.
    rewrite <- (step_shift x df
                  (fun p r => ~ threshold < turbulence p
                              /\ threshold < turbulence r /\ time r = t)).
    split; (intros [(r & df' & E & H) | (l1 & p & r & l2 & E & H)];
            [left; exists r, df' | right; exists l1, p, r, l2]);
      (split; [exact E|]);
      rewrite ?active_false, ?active_true in *; tauto.
Qed.

(** X3.  A time is in [pulse_ends] exactly when the table has two
    consecutive rows, the first above the threshold and the second not
    above it, and it is the time of the second. *)
Theorem pulse_ends_steps (threshold : Q) (df : DataFrame) (t : Q) :
  In t (pulse_ends threshold df) <->
  exists l1 p r l2,
    df = l1 ++ p :: r :: l2
    /\ (threshold < turbulence p /\ ~ threshold < turbulence r /\ time r = t).
Proof.
  destruct df as [|x df].
  - split; [intros [] | intros (l1 & p & r & l2 & E & _)].
    destruct l1; discriminate.
  - rewrite pulse_ends_cons, falling_In.
    rewrite <- (step_shift x df
                  (fun p r => threshold < turbulence p
                              /\ ~ threshold < turbulence r /\ time r = t)).
    split; (intros [(r & df' & E & H) | (l1 & p & r & l2 & E & H)];
            [left; exists r, df' | right; exists l1, p, r, l2]);
      (split; [exact E|]);
      rewrite ?active_false, ?active_true in *; tauto.
Qed.

(** ** How many boundaries *)

Section Counting.

Variable threshold : Q.

Lemma edge_count (prev : bool) (df : DataFrame) :
  (length (rising threshold prev df) + Nat.b2n prev
   = length (falling threshold prev df)
     + Nat.b2n (flag_after threshold prev df))%nat.
Proof.
  revert prev. induction df as [|x df IH]; intro prev;
    [cbn; lia|].
  cbn [rising falling flag_after]. specialize (IH (active threshold x)).
  destruct prev, (active threshold x); cbn [negb andb length Nat.b2n] in *; lia.
Qed.

Lemma flag_after_last (prev : bool) (x y : Row) (l : DataFrame) :
  last_sample (x :: l) = Some y ->
  flag_after threshold prev (x :: l) = active threshold y.
Proof.
  revert prev x. induction l as [|z l IH]; intros prev x H.
  - injection H as <-. reflexivity.
  - change (flag_after threshold prev (x :: z :: l))
      with (flag_after threshold (active threshold x) (z :: l)).
    apply IH.
    change (x :: z :: l) with ([x] ++ z :: l) in H.
    rewrite last_sample_app in H by discriminate. exact H.
Qed.

End Counting.

(** X4.  On every non-empty table the rising and the falling edges balance
    with the flags of the two ends: the number of starts plus one if the
    first sample is active equals the number of ends plus one if the last
    sample is active.  Hence the printed count [n_pulses] is the number of
    shaded pairs, plus one exactly when the table begins inactive and ends
    active. *)
Theorem edges_balance (threshold : Q) (df : DataFrame) (first last : Row) :
  first_sample df = Some first ->
  last_sample df = Some last ->
  (n_pulses threshold df + Nat.b2n (active threshold first)
   = length (pulse_ends threshold df) + Nat.b2n (active threshold last))%nat
  /\ (n_pulses threshold df
      = length (pulse_spans threshold df)
        + Nat.b2n (negb (active threshold first) && active threshold last))%nat.
Proof.
  intros Hfirst Hlast. destruct df as [|x df]; [discriminate|].
  injection Hfirst as ->.
  pose proof (edge_count threshold (active threshold first) df) as Hc.
  change (flag_after threshold (active threshold first) df)
    with (flag_after threshold false (first :: df)) in Hc.
  rewrite (flag_after_last threshold false first last df Hlast) in Hc.
  unfold n_pulses, pulse_spans. rewrite length_combine.
  rewrite pulse_starts_cons, pulse_ends_cons.
  destruct (active threshold first), (active threshold last);
    cbn [negb andb Nat.b2n] in *; lia.
Qed.

Lemma edges_balance_witness :
  first_sample trailing_pulse = Some (mkRow 0 1 1 1)
  /\ last_sample trailing_pulse = Some (mkRow 1 1 1 15)
  /\ (n_pulses 10 trailing_pulse + Nat.b2n (active 10 (mkRow 0 1 1 1))
      = length (pulse_ends 10 trailing_pulse)
        + Nat.b2n (active 10 (mkRow 1 1 1 15)))%nat
  /\ (n_pulses 10 trailing_pulse
      = length (pulse_spans 10 trailing_pulse)
        + Nat.b2n (negb (active 10 (mkRow 0 1 1 1))
                   && active 10 (mkRow 1 1 1 15)))%nat.
Proof.
  split; [reflexivity|]. split; [reflexivity|].
  apply (edges_balance 10 trailing_pulse _ _ eq_refl eq_refl).
Defined.

(** ** Boundaries in time *)

Lemma weave_cons (x : Q) (xs ys : list Q) :
  weave (x :: xs) ys = x :: weave ys xs.
Proof.
  revert x xs. induction ys as [|y ys IH]; intros x xs.
  - destruct xs; reflexivity.
  - cbn [weave]. destruct xs as [|x' xs]; [reflexivity|].
    rewrite IH. reflexivity.
Qed.

Lemma weave_length (xs ys : list Q) :
  length (weave xs ys) = (length xs + length ys)%nat.
Proof.
  revert ys. induction xs as [|x xs IH]; intros ys; [reflexivity|].
  destruct ys as [|y ys]; cbn [weave length]; [lia|].
  rewrite IH. lia.
Qed.

Lemma weave_In (xs ys : list Q) (t : Q) :
  In t (weave xs ys) <-> In t xs \/ In t ys.
Proof.
  revert ys. induction xs as [|x xs IH]; intros ys.
  - cbn. tauto.
  - destruct ys as [|y ys]; [cbn; tauto|].
    cbn [weave In]. rewrite IH. tauto.
Qed.

(** In an increasing alternation [x1 < y1 < x2 < ...] the k-th [x] is
    before the k-th [y], and no value is on both sides. *)
Lemma weave_sorted_pairs (xs ys : list Q) :
  StronglySorted Qlt (weave xs ys) ->
  forall x y, In (x, y) (combine xs ys) -> x < y.
Proof.
  revert ys. induction xs as [|x0 xs IH]; intros ys Hs x y Hin;
    [destruct Hin|].
  destruct ys as [|y0 ys]; [destruct Hin|].
  cbn [weave] in Hs. apply StronglySorted_inv in Hs.
  destruct Hs as (Hs & Hall). apply StronglySorted_inv in Hs.
  destruct Hs as (Hs & _).
  destruct Hin as [E | Hin].
  - injection E as <- <-. apply (Forall_inv Hall).
  - apply (IH ys Hs x y Hin).
Qed.

Lemma weave_sorted_disjoint (xs ys : list Q) (t : Q) :
  StronglySorted Qlt (weave xs ys) -> In t xs -> In t ys -> False.
Proof.
  revert ys. induction xs as [|x0 xs IH]; intros ys Hs Hx Hy;
    [destruct Hx|].
  destruct ys as [|y0 ys]; [destruct Hy|].
  cbn [weave] in Hs. apply StronglySorted_inv in Hs.
  destruct Hs as (Hs & Hall0). apply StronglySorted_inv in Hs.
  destruct Hs as (Hs & Hall1).
  pose proof (Forall_inv Hall0) as H01. cbn beta in H01.
  pose proof (Forall_inv_tail Hall0) as Hall0'.
  rewrite Forall_forall in Hall0', Hall1.
  destruct Hx as [<- | Hx], Hy as [<- | Hy].
  - apply (Qlt_irrefl _ H01).
  - apply (Qlt_irrefl x0). apply Hall0'. apply weave_In. now right.
  - apply (Qlt_irrefl y0). apply Hall1. apply weave_In. now left.
  - apply (IH ys Hs Hx Hy).
Qed.

Section Alternation.

Variable threshold : Q.

Lemma boundaries_weave (prev : bool) (df : DataFrame) :
  boundaries threshold prev df
  = if prev
    then weave (falling threshold true df) (rising threshold true df)
    else weave (rising threshold false df) (falling threshold false df).
Proof.
  revert prev. induction df as [|x df IH]; intro prev;
    [destruct prev; reflexivity|].
  cbn [boundaries rising falling].
  rewrite (IH (active threshold x)).
  destruct prev, (active threshold x); cbn [xorb negb andb];
    rewrite ?weave_cons; reflexivity.
Qed.

Lemma boundaries_In (prev : bool) (df : DataFrame) (t : Q) :
  In t (boundaries threshold prev df) -> exists r, In r df /\ time r = t.
Proof.
  revert prev. induction df as [|x df IH]; intros prev H; [destruct H|].
  cbn [boundaries] in H.
  assert (Htail : In t (boundaries threshold (active threshold x) df) ->
                  exists r, In r (x :: df) /\ time r = t).
  { intro Hin. destruct (IH _ Hin) as (r & Hr & E).
    exists r. split; [now right | exact E]. }
  destruct (xorb prev (active threshold x)); [|auto].
  destruct H as [<- | H]; [|auto].
  exists x. split; [now left | reflexivity].
Qed.

Lemma boundaries_sorted (prev : bool) (df : DataFrame) :
  times_sorted df -> StronglySorted Qlt (boundaries threshold prev df).
Proof.
  revert prev. induction df as [|x df IH]; intros prev Hs; [constructor|].
  pose proof (StronglySorted_inv Hs) as (Hs' & Hall).
  cbn [boundaries].
  destruct (xorb prev (active threshold x)); [|apply IH, Hs'].
  constructor; [apply IH, Hs'|].
  rewrite Forall_forall in Hall |- *. intros t Ht.
  destruct (boundaries_In _ _ _ Ht) as (r & Hr & <-). apply Hall, Hr.
Qed.

Lemma alternate_edges_cons (r : Row) (df : DataFrame) :
  alternate_edges threshold (r :: df)
  = boundaries threshold (active threshold r) df.
Proof.
  unfold alternate_edges.
  rewrite pulse_starts_cons, pulse_ends_cons, boundaries_weave.
  destruct (active threshold r); reflexivity.
Qed.

End Alternation.

(** ** Selection by a boolean mask (lines 61 and 63) *)

Lemma getitem_In {A : Type} (s : list A) (mask : list bool) (x : A) :
  In x (Series.getitem s mask) -> In x s.
Proof.
  revert mask. induction s as [|y s IH]; intros mask H; [destruct mask; exact H|].
  destruct mask as [|b mask]; [destruct H|].
  cbn [Series.getitem] in H. destruct b.
  - destruct H as [<- | H]; [now left | right; apply (IH mask H)].
  - right. apply (IH mask H).
Qed.

Lemma getitem_sorted
      {A : Type} (R : A -> A -> Prop) (s : list A) (mask : list bool) :
  StronglySorted R s -> StronglySorted R (Series.getitem s mask).
Proof.
  intro Hs. revert mask. induction Hs as [|y s Hs IH Hall]; intro mask;
    [destruct mask; constructor|].
  destruct mask as [|b mask]; [constructor|].
  cbn [Series.getitem]. destruct b; [|apply IH].
  constructor; [apply IH|].
  rewrite Forall_forall in Hall |- *.
  intros x Hx. apply Hall. apply (getitem_In _ _ _ Hx).
Qed.

Lemma eq_scalar_length (s : list (option Z)) (k : Z) :
  length (Series.eq_scalar s k) = length s.
Proof. unfold Series.eq_scalar. apply length_map. Qed.

Lemma getitem_length {A : Type} (s : list A) (mask : list bool) :
  (length (Series.getitem s mask) <= length s)%nat.
Proof.
  revert mask. induction s as [|y s IH]; intro mask;
    [destruct mask; cbn; lia|].
  destruct mask as [|b mask]; [cbn; lia|].
  cbn [Series.getitem length]. specialize (IH mask).
  destruct b; cbn [length]; lia.
Qed.

(** X5.  The masks of lines 61 and 63, [pulse_changes == k], have one
    entry per row of the table, so the boolean indexing of [df['time']]
    is aligned row by row (pandas refuses a mask of another length).  What
    it selects are times of rows of the table, in table order and no more
    than the table has rows; an order that holds along the time column
    holds along the selection. *)
Theorem mask_selection_aligned (threshold : Q) (df : DataFrame) (k : Z) :
  length (Series.eq_scalar (pulse_changes threshold df) k)
  = length (map time df)
  /\ (length (Series.getitem (map time df)
                 (Series.eq_scalar (pulse_changes threshold df) k))
      <= length df)%nat
  /\ (forall t,
        In t (Series.getitem (map time df)
                (Series.eq_scalar (pulse_changes threshold df) k)) ->
        exists r, In r df /\ time r = t)
  /\ (forall R : Q -> Q -> Prop,
        StronglySorted R (map time df) ->
        StronglySorted R
          (Series.getitem (map time df)
             (Series.eq_scalar (pulse_changes threshold df) k))).
Proof.
  split; [|split; [|split]].
  - rewrite eq_scalar_length, pulse_changes_length, length_map. reflexivity.
  - rewrite <- (length_map time df). apply getitem_length.
  - intros t Ht. apply getitem_In in Ht. apply in_map_iff in Ht.
    destruct Ht as (r & E & Hr). exists r. split; [exact Hr | exact E].
  - intros R HR. apply getitem_sorted, HR.
Qed.

Lemma times_sorted_column (df : DataFrame) :
  times_sorted df -> StronglySorted Qlt (map time df).
Proof.
  unfold times_sorted. induction 1 as [|r df Hs IH Hall]; [constructor|].
  cbn [map]. constructor; [exact IH|].
  rewrite Forall_forall in Hall |- *. intros t Ht.
  apply in_map_iff in Ht. destruct Ht as (x & <- & Hx). apply Hall, Hx.
Qed.

(** ** Boundaries in time, for every table *)

Lemma alternate_edges_sorted (threshold : Q) (df : DataFrame) :
  increasing_times df -> StronglySorted Qlt (alternate_edges threshold df).
Proof.
  intro Hinc. pose proof (increasing_times_sorted df Hinc) as Hs.
  destruct df as [|r df]; [constructor|].
  rewrite alternate_edges_cons. apply boundaries_sorted.
  apply (StronglySorted_inv Hs).
Qed.

(** X6.  On a table with increasing times the rising and the falling
    edges alternate in time: read alternately, beginning with a start when
    the first sample is inactive and with an end when it is active, the
    boundaries increase strictly, and none is lost in the reading.  So
    [pulse_starts] and [pulse_ends] are each increasing and no time is in
    both. *)
Theorem edges_alternate (threshold : Q) (df : DataFrame) :
  increasing_times df ->
  StronglySorted Qlt (alternate_edges threshold df)
  /\ length (alternate_edges threshold df)
     = (n_pulses threshold df + length (pulse_ends threshold df))%nat
  /\ StronglySorted Qlt (pulse_starts threshold df)
  /\ StronglySorted Qlt (pulse_ends threshold df)
  /\ (forall t, In t (pulse_starts threshold df) ->
                In t (pulse_ends threshold df) -> False).
Proof.
  intro Hinc. pose proof (increasing_times_sorted df Hinc) as Hs.
  pose proof (alternate_edges_sorted threshold df Hinc) as Halt.
  split; [exact Halt|]. split; [|split; [|split]].
  - unfold alternate_edges, n_pulses. destruct df as [|r df]; [reflexivity|].
    destruct (active threshold r); rewrite weave_length; lia.
  - apply getitem_sorted, times_sorted_column, Hs.
  - apply getitem_sorted, times_sorted_column, Hs.
  - intros t H1 H2. unfold alternate_edges in Halt.
    destruct df as [|r df]; [destruct H1|].
    destruct (active threshold r).
    + apply (weave_sorted_disjoint _ _ t Halt H2 H1).
    + apply (weave_sorted_disjoint _ _ t Halt H1 H2).
Qed.

Lemma edges_alternate_witness :
  increasing_times leading_pulse
  /\ StronglySorted Qlt (alternate_edges 10 leading_pulse)
  /\ length (alternate_edges 10 leading_pulse)
     = (n_pulses 10 leading_pulse + length (pulse_ends 10 leading_pulse))%nat
  /\ StronglySorted Qlt (pulse_starts 10 leading_pulse)
  /\ StronglySorted Qlt (pulse_ends 10 leading_pulse)
  /\ (forall t, In t (pulse_starts 10 leading_pulse) ->
                In t (pulse_ends 10 leading_pulse) -> False).
Proof.
  assert (H : increasing_times leading_pulse) by (repeat constructor).
  split; [exact H|].
  apply (edges_alternate 10 leading_pulse H).
Defined.

(** X7.  On a table with increasing times every boundary is the time of
    a row after the first one: the first sample, whose change is NaN, is
    never a start or an end, and every boundary is later than it. *)
Theorem first_sample_no_boundary
        (threshold : Q) (r : Row) (df : DataFrame) (t : Q) :
  increasing_times (r :: df) ->
  In t (pulse_starts threshold (r :: df))
  \/ In t (pulse_ends threshold (r :: df)) ->
  time r < t /\ exists x, In x df /\ time x = t.
Proof.
  intros Hinc Hin.
  pose proof (increasing_times_sorted _ Hinc) as Hs.
  apply StronglySorted_inv in Hs. destruct Hs as (_ & Hall).
  assert (Hb : In t (boundaries threshold (active threshold r) df)).
  { rewrite <- alternate_edges_cons. unfold alternate_edges.
    destruct (active threshold r); apply weave_In; tauto. }
  destruct (boundaries_In _ _ _ _ Hb) as (x & Hx & <-).
  split; [|exists x; auto].
  rewrite Forall_forall in Hall. apply Hall, Hx.
Qed.

Lemma first_sample_no_boundary_witness :
  increasing_times trailing_pulse
  /\ (In 1 (pulse_starts 10 trailing_pulse)
      \/ In 1 (pulse_ends 10 trailing_pulse))
  /\ 0 < 1
  /\ exists x, In x (of_samples [(1, 15)]) /\ time x = 1.
Proof.
  assert (H1 : increasing_times trailing_pulse) by (repeat constructor).
  assert (H2 : In 1 (pulse_starts 10 trailing_pulse)
               \/ In 1 (pulse_ends 10 trailing_pulse)).
  { left. left. reflexivity. }
  split; [exact H1|]. split; [exact H2|].
  apply (first_sample_no_boundary 10 (mkRow 0 1 1 1) (of_samples [(1, 15)]) 1
           H1 H2).
Defined.

(** X8.  On a table with increasing times that begins with an active
    sample, every pair of [zip(pulse_starts, pulse_ends)] has its end
    before its start: the k-th start is paired with the falling edge that
    precedes it, and what is shaded is the gap before a pulse, not the
    pulse. *)
Theorem leading_run_reverses_pairs
        (threshold : Q) (df : DataFrame) (s e : Q) :
  increasing_times df ->
  starts_busy threshold df ->
  In (s, e) (pulse_spans threshold df) ->
  e < s.
Proof.
  intros Hinc (r & Hfirst & Hr) Hin.
  pose proof (alternate_edges_sorted threshold df Hinc) as Halt.
  destruct df as [|x df]; [discriminate|]. injection Hfirst as ->.
  unfold alternate_edges in Halt. rewrite Hr in Halt.
  unfold pulse_spans in Hin.
  apply (weave_sorted_pairs _ _ Halt e s).
  revert Hin.
  generalize (pulse_starts threshold (r :: df)) as xs.
  generalize (pulse_ends threshold (r :: df)) as ys.
  induction ys as [|y ys IH]; intros [|x xs] H; try destruct H.
  - injection H as -> ->. now left.
  - right. apply IH, H.
Qed.

Lemma leading_run_reverses_pairs_witness :
  increasing_times leading_pulse
  /\ starts_busy 10 leading_pulse
  /\ In (2, 1) (pulse_spans 10 leading_pulse)
  /\ 1 < 2.
Proof.
  assert (H1 : increasing_times leading_pulse) by (repeat constructor).
  assert (H2 : starts_busy 10 leading_pulse).
  { eexists. split; reflexivity. }
  assert (H3 : In (2, 1) (pulse_spans 10 leading_pulse)).
  { left. reflexivity. }
  split; [exact H1|]. split; [exact H2|]. split; [exact H3|].
  apply (leading_run_reverses_pairs 10 leading_pulse 2 1 H1 H2 H3).
Defined.

(** ** Cutting a table in two *)

(** X9.  Detection splits where the indicator does not change: when the
    last sample of a first part and the first sample of a second part have
    the same flag, the starts (the ends) of the whole table are those of
    the first part followed by those of the second, and the pulse counts
    add up. *)
Theorem detection_splits
        (threshold : Q) (l1 l2 : DataFrame) (a b : Row) :
  last_sample l1 = Some a ->
  first_sample l2 = Some b ->
  active threshold a = active threshold b ->
  pulse_starts threshold (l1 ++ l2)
  = pulse_starts threshold l1 ++ pulse_starts threshold l2
  /\ pulse_ends threshold (l1 ++ l2)
     = pulse_ends threshold l1 ++ pulse_ends threshold l2
  /\ n_pulses threshold (l1 ++ l2)
     = (n_pulses threshold l1 + n_pulses threshold l2)%nat.
Proof.
  intros Ha Hb Hab.
  destruct l1 as [|x l1]; [discriminate|].
  destruct l2 as [|y l2]; [discriminate|]. injection Hb as ->.
  assert (Hflag : flag_after threshold (active threshold x) l1
                  = active threshold b).
  { change (flag_after threshold (active threshold x) l1)
      with (flag_after threshold false (x :: l1)).
    rewrite (flag_after_last threshold false x a l1 Ha). exact Hab. }
  assert (Hs : pulse_starts threshold ((x :: l1) ++ b :: l2)
               = pulse_starts threshold (x :: l1)
                 ++ pulse_starts threshold (b :: l2)).
  { cbn [app]. rewrite !pulse_starts_cons, rising_app, Hflag.
    cbn [rising]. destruct (active threshold b); reflexivity. }
  assert (He : pulse_ends threshold ((x :: l1) ++ b :: l2)
               = pulse_ends threshold (x :: l1)
                 ++ pulse_ends threshold (b :: l2)).
  { cbn [app]. rewrite !pulse_ends_cons, falling_app, Hflag.
    cbn [falling]. destruct (active threshold b); reflexivity. }
  split; [exact Hs|]. split; [exact He|].
  unfold n_pulses. rewrite Hs, length_app. reflexivity.
Qed.

Lemma detection_splits_witness :
  last_sample first_stretch = Some (mkRow 2 1 1 1)
  /\ first_sample second_stretch = Some (mkRow 3 1 1 4)
  /\ active 10 (mkRow 2 1 1 1) = active 10 (mkRow 3 1 1 4)
  /\ pulse_starts 10 (first_stretch ++ second_stretch)
     = pulse_starts 10 first_stretch ++ pulse_starts 10 second_stretch
  /\ pulse_ends 10 (first_stretch ++ second_stretch)
     = pulse_ends 10 first_stretch ++ pulse_ends 10 second_stretch
  /\ n_pulses 10 (first_stretch ++ second_stretch)
     = (n_pulses 10 first_stretch + n_pulses 10 second_stretch)%nat.
Proof.
  split; [reflexivity|]. split; [reflexivity|]. split; [reflexivity|].
  apply (detection_splits 10 first_stretch second_stretch
           (mkRow 2 1 1 1) (mkRow 3 1 1 4) eq_refl eq_refl eq_refl).
Defined.

(** ** The columns detection reads *)

(** X10.  Detection reads the [time] and [turbulence] columns only: two
    tables that agree on them have the same flags, changes, starts, ends,
    pairs and count, and the script prints the same count and shades the
    same intervals, whatever the impurity columns hold. *)
Theorem detection_reads_two_columns (threshold : Q) (df df' : DataFrame) :
  samples df = samples df' ->
  pulse_active threshold df = pulse_active threshold df'
  /\ pulse_changes threshold df = pulse_changes threshold df'
  /\ pulse_starts threshold df = pulse_starts threshold df'
  /\ pulse_ends threshold df = pulse_ends threshold df'
  /\ pulse_spans threshold df = pulse_spans threshold df'
  /\ n_pulses threshold df = n_pulses threshold df'
  /\ detection_log threshold df = detection_log threshold df'.
Proof.
  intro H.
  unfold detection_log, n_pulses, pulse_spans, pulse_starts, pulse_ends,
    pulse_changes, pulse_active.
  rewrite !samples_time, !samples_turbulence, H.
  repeat split; reflexivity.
Qed.

Lemma detection_reads_two_columns_witness :
  samples [mkRow 0 7 8 1; mkRow 1 9 3 15] = samples trailing_pulse
  /\ pulse_active 10 [mkRow 0 7 8 1; mkRow 1 9 3 15]
     = pulse_active 10 trailing_pulse
  /\ pulse_changes 10 [mkRow 0 7 8 1; mkRow 1 9 3 15]
     = pulse_changes 10 trailing_pulse
  /\ pulse_starts 10 [mkRow 0 7 8 1; mkRow 1 9 3 15]
     = pulse_starts 10 trailing_pulse
  /\ pulse_ends 10 [mkRow 0 7 8 1; mkRow 1 9 3 15]
     = pulse_ends 10 trailing_pulse
  /\ pulse_spans 10 [mkRow 0 7 8 1; mkRow 1 9 3 15]
     = pulse_spans 10 trailing_pulse
  /\ n_pulses 10 [mkRow 0 7 8 1; mkRow 1 9 3 15] = n_pulses 10 trailing_pulse
  /\ detection_log 10 [mkRow 0 7 8 1; mkRow 1 9 3 15]
     = detection_log 10 trailing_pulse.
Proof.
  split; [reflexivity|].
  apply (detection_reads_two_columns 10 _ trailing_pulse eq_refl).
Defined.

(** ** Reading a cell by position (lines 109 and 111) *)

(** X11.  [s.iloc[i]] succeeds exactly for [-len(s) <= i < len(s)], and
    then returns the entry at position [i mod len(s)]: a negative position
    counts from the end.  Every other position raises [IndexError]; on an
    empty series every position does. *)
Theorem iloc_positions (s : list Q) (i : Z) :
  (iloc s i = Raise IndexError
   <-> (i < - Z.of_nat (length s) \/ Z.of_nat (length s) <= i)%Z)
  /\ (forall v,
        iloc s i = Return v
        <-> (- Z.of_nat (length s) <= i < Z.of_nat (length s))%Z
            /\ nth_error s (Z.to_nat (i mod Z.of_nat (length s))) = Some v)
  /\ (forall e, iloc s i = Raise e -> e = IndexError).
Proof.
  unfold iloc. set (n := Z.of_nat (length s)).
  set (k := if (i <? 0)%Z then (n + i)%Z else i).
  assert (Hk : (- n <= i < n)%Z -> (0 <= k < n)%Z /\ (i mod n = k)%Z).
  { intro Hi. unfold k. destruct (Z.ltb_spec i 0).
    - split; [lia|].
      rewrite <- (Z.mod_add i 1 n) by lia.
      rewrite Z.mod_small by lia. lia.
    - split; [lia|]. apply Z.mod_small. lia. }
  assert (Hout : (i < - n \/ n <= i)%Z -> (k < 0 \/ n <= k)%Z).
  { intro Hi. unfold k. destruct (Z.ltb_spec i 0); lia. }
  assert (Hin : (0 <= k < n)%Z -> (- n <= i < n)%Z).
  { intro Hb. unfold k in Hb. destruct (Z.ltb_spec i 0); lia. }
  destruct (Z.ltb_spec k 0) as [Hlt | Hge]; cbn [orb].
  { split; [|split].
    - split; [intros _|reflexivity].
      destruct (Z_lt_ge_dec i (- n)); [now left|].
      destruct (Z_lt_ge_dec i n); [|right; lia].
      exfalso. destruct Hk; lia.
    - intro v. split; [discriminate|]. intros (Hi & _).
      destruct (Hk Hi). lia.
    - intros e E. injection E as <-. reflexivity. }
  destruct (Z.leb_spec n k) as [Hle | Hlt].
  { split; [|split].
    - split; [intros _|reflexivity].
      destruct (Z_lt_ge_dec i (- n)); [now left|].
      destruct (Z_lt_ge_dec i n); [|right; lia].
      exfalso. destruct Hk; lia.
    - intro v. split; [discriminate|]. intros (Hi & _).
      destruct (Hk Hi). lia.
    - intros e E. injection E as <-. reflexivity. }
  assert (Hi : (- n <= i < n)%Z) by (apply Hin; lia).
  destruct (Hk Hi) as (_ & Hmod). rewrite Hmod.
  destruct (nth_error s (Z.to_nat k)) as [v|] eqn:E.
  - split; [|split].
    + split; [discriminate | lia].
    + intro v'. split.
      * intro H. injection H as <-. split; [exact Hi | reflexivity].
      * intros (_ & H). injection H as <-. reflexivity.
    + discriminate.
  - exfalso. apply nth_error_None in E. unfold n in *. lia.
Qed.

(** ** When no pulse is counted *)

Section NoStart.

Variable threshold : Q.

Lemma rising_none_idle (df : DataFrame) :
  rising threshold false df = [] -> Forall (idle threshold) df.
Proof.
  induction df as [|x df IH]; intro H; [constructor|].
  cbn [rising] in H. destruct (active threshold x) eqn:Hx;
    cbn [negb andb] in H; [discriminate|].
  constructor; [exact Hx | apply IH, H].
Qed.

Lemma n_pulses_zero (df : DataFrame) :
  n_pulses threshold df = 0%nat <->
  exists run gap,
    df = run ++ gap
    /\ Forall (busy threshold) run /\ Forall (idle threshold) gap.
Proof.
  unfold n_pulses. rewrite length_zero_iff_nil. split.
  - intro H.
    destruct (split_busy threshold df) as (run & rest & -> & Hrun & Hrest).
    exists run, rest. split; [reflexivity|]. split; [exact Hrun|].
    destruct Hrest as [-> | (stop & rest' & -> & Hstop)]; [constructor|].
    constructor; [exact Hstop|]. apply rising_none_idle.
    unfold idle in Hstop.
    destruct run as [|x run].
    + cbn [app] in H. rewrite pulse_starts_cons, Hstop in H. exact H.
    + cbn [app] in H. rewrite pulse_starts_cons in H.
      rewrite (Forall_inv Hrun) in H.
      rewrite (rising_busy threshold run _ (Forall_inv_tail Hrun)) in H.
      cbn [rising] in H. rewrite Hstop in H. exact H.
  - intros (run & gap & -> & Hrun & Hgap).
    assert (Hg : rising threshold true gap = []
                 /\ rising threshold false gap = []).
    { destruct gap as [|g gap]; [split; reflexivity|].
      pose proof (Forall_inv Hgap) as Hg0. unfold idle in Hg0.
      cbn [rising]. rewrite Hg0. cbn [negb andb].
      split; apply (idle_no_edges threshold gap (Forall_inv_tail Hgap)). }
    destruct run as [|x run].
    + cbn [app]. destruct gap as [|g gap]; [reflexivity|].
      rewrite pulse_starts_cons. rewrite (Forall_inv Hgap).
      apply (idle_no_edges threshold gap (Forall_inv_tail Hgap)).
    + cbn [app]. rewrite pulse_starts_cons, (Forall_inv Hrun).
      rewrite (rising_busy threshold run _ (Forall_inv_tail Hrun)).
      apply Hg.
Qed.

End NoStart.

(** X16.  The pulse count is 0 exactly on the tables in which the
    turbulence never steps from not above the threshold to above it: a
    (possibly empty) stretch of rows above the threshold followed by a
    (possibly empty) stretch of rows not above it.  These are the tables
    on which the division of line 113 raises [ZeroDivisionError]. *)
Theorem division_error_tables (d threshold : Q) (df : DataFrame) :
  (n_pulses threshold df = 0%nat
   <-> exists run gap,
         df = run ++ gap
         /\ Forall (fun r => threshold < turbulence r) run
         /\ Forall (fun r => ~ threshold < turbulence r) gap)
  /\ (mean_pulse_spacing d (n_pulses threshold df) = Raise ZeroDivisionError
      <-> exists run gap,
            df = run ++ gap
            /\ Forall (fun r => threshold < turbulence r) run
            /\ Forall (fun r => ~ threshold < turbulence r) gap).
Proof.
  assert (Hz : n_pulses threshold df = 0%nat
               <-> exists run gap,
                     df = run ++ gap
                     /\ Forall (fun r => threshold < turbulence r) run
                     /\ Forall (fun r => ~ threshold < turbulence r) gap).
  { rewrite n_pulses_zero.
    split; intros (run & gap & E & Hrun & Hgap); exists run, gap;
      (split; [exact E|]); split.
    - apply (flags_order threshold run), Hrun.
    - apply (flags_order threshold gap), Hgap.
    - apply (flags_order threshold run), Hrun.
    - apply (flags_order threshold gap), Hgap. }
  split; [exact Hz|]. rewrite <- Hz.
  unfold mean_pulse_spacing.
  destruct (n_pulses threshold df); split; intro H;
    try reflexivity; discriminate H.
Qed.

(** ** Tables on which the pairs are the pulses *)

(** X17.  On a table with increasing times whose first and last values
    are at or below the threshold, the pairs of
    [zip(pulse_starts, pulse_ends)] are in order and apart, every row above
    the threshold has its time in exactly one pair (start included, end
    excluded) and every row at or below the threshold in none. *)
Theorem inactive_ends_membership
        (threshold : Q) (df : DataFrame) (first last : Row) :
  increasing_times df ->
  first_sample df = Some first -> turbulence first <= threshold ->
  last_sample df = Some last -> turbulence last <= threshold ->
  separated (pulse_spans threshold df)
  /\ forall x, In x df ->
       (threshold < turbulence x ->
        exists s, In s (pulse_spans threshold df)
                  /\ inside (time x) s
                  /\ forall s', In s' (pulse_spans threshold df) ->
                                inside (time x) s' -> s' = s)
       /\ (turbulence x <= threshold ->
           forall s, In s (pulse_spans threshold df) -> ~ inside (time x) s).
Proof.
  intros Hinc Hfirst Hf Hlast Hl.
  assert (H1 : starts_idle threshold df).
  { exists first. split; [exact Hfirst | apply Qgtb_false, Hf]. }
  assert (H2 : ends_idle threshold df).
  { intros r Hr. rewrite Hlast in Hr. injection Hr as <-.
    apply Qgtb_false, Hl. }
  destruct (idle_spans_cover threshold df Hinc H1 H2) as (Hsep & Hcov).
  split; [exact Hsep|].
  intros x Hx. destruct (Hcov x Hx) as (Hin & Hout). split.
  - intro Hb. apply Hin. apply Qgtb_true, Hb.
  - intro Hi. apply Hout. apply Qgtb_false, Hi.
Qed.

Lemma inactive_ends_membership_witness :
  increasing_times (of_samples scenario)
  /\ first_sample (of_samples scenario) = Some (mkRow 0 1 1 1)
  /\ turbulence (mkRow 0 1 1 1) <= 10
  /\ last_sample (of_samples scenario) = Some (mkRow 6 1 1 1)
  /\ turbulence (mkRow 6 1 1 1) <= 10
  /\ separated (pulse_spans 10 (of_samples scenario))
  /\ forall x, In x (of_samples scenario) ->
       (10 < turbulence x ->
        exists s, In s (pulse_spans 10 (of_samples scenario))
                  /\ inside (time x) s
                  /\ forall s', In s' (pulse_spans 10 (of_samples scenario)) ->
                                inside (time x) s' -> s' = s)
       /\ (turbulence x <= 10 ->
           forall s, In s (pulse_spans 10 (of_samples scenario)) ->
                     ~ inside (time x) s).
Proof.
  assert (H1 : increasing_times (of_samples scenario))
    by (repeat constructor).
  assert (H2 : turbulence (mkRow 0 1 1 1) <= 10) by (cbn; discriminate).
  assert (H3 : turbulence (mkRow 6 1 1 1) <= 10) by (cbn; discriminate).
  split; [exact H1|]. split; [reflexivity|]. split; [exact H2|].
  split; [reflexivity|]. split; [exact H3|].
  apply (inactive_ends_membership 10 (of_samples scenario) _ _
           H1 eq_refl H2 eq_refl H3).
Defined.

(** X18.  On a table with increasing times whose first value is at or
    below the threshold, however it ends, every pair of
    [zip(pulse_starts, pulse_ends)] has its start before its end, and each
    pair closes no later than the pairs after it open. *)
Theorem inactive_start_pairs_ordered
        (threshold : Q) (df : DataFrame) (first : Row) :
  increasing_times df ->
  first_sample df = Some first -> turbulence first <= threshold ->
  separated (pulse_spans threshold df)
  /\ forall s e, In (s, e) (pulse_spans threshold df) -> s < e.
Proof.
  intros Hinc Hfirst Hf.
  assert (H1 : starts_idle threshold df).
  { exists first. split; [exact Hfirst | apply Qgtb_false, Hf]. }
  pose proof (idle_start_spans_separated threshold df Hinc H1) as Hsep.
  split; [exact Hsep|].
  revert Hsep. generalize (pulse_spans threshold df) as spans.
  induction spans as [|p spans IH]; intros Hsep s e Hin; [destruct Hin|].
  cbn [separated] in Hsep. destruct Hsep as (Hp & _ & Hsep).
  destruct Hin as [-> | Hin]; [exact Hp | apply (IH Hsep s e Hin)].
Qed.

Lemma inactive_start_pairs_ordered_witness :
  increasing_times (of_samples [(0, 1); (1, 15); (2, 1); (3, 15)])
  /\ first_sample (of_samples [(0, 1); (1, 15); (2, 1); (3, 15)])
     = Some (mkRow 0 1 1 1)
  /\ turbulence (mkRow 0 1 1 1) <= 10
  /\ separated (pulse_spans 10 (of_samples [(0, 1); (1, 15); (2, 1); (3, 15)]))
  /\ forall s e,
       In (s, e) (pulse_spans 10 (of_samples [(0, 1); (1, 15); (2, 1); (3, 15)]))
       -> s < e.
Proof.
  assert (H1 : increasing_times (of_samples [(0, 1); (1, 15); (2, 1); (3, 15)]))
    by (repeat constructor).
  assert (H2 : turbulence (mkRow 0 1 1 1) <= 10) by (cbn; discriminate).
  split; [exact H1|]. split; [reflexivity|]. split; [exact H2|].
  apply (inactive_start_pairs_ordered
           10 (of_samples [(0, 1); (1, 15); (2, 1); (3, 15)]) _ H1 eq_refl H2).
Defined.
